(** * Stored-procedure deployer (main.py): model and verified properties

    The development embeds [main.py] shallowly.  Script text is a list of
    Unicode code points, the regular expression of the statement splitter is
    run by a small backtracking matcher, and the deployment engine is a
    program in a state-and-exception monad whose state holds the database
    (committed and working copy), the three counters of the run and the
    trace of every call made on the connection and on the logger. *)

From Stdlib Require Import NArith ZArith String Ascii List Bool Lia.
From stdpp Require Import base option list strings gmap.

Open Scope N_scope.

(** ** Text *)

(** A Python [str] is a sequence of code points. *)
Abbreviation text := (list N).

Definition LF : N := 10.

(** [str.isspace] on one code point, which is also the class [\s] of [re]
    on [str] patterns (both are [Py_UNICODE_ISSPACE]). *)
Definition isspace (c : N) : bool :=
  ((9 <=? c) && (c <=? 13)) || ((28 <=? c) && (c <=? 32))
  || (c =? 133) || (c =? 160) || (c =? 5760)
  || ((8192 <=? c) && (c <=? 8202))
  || (c =? 8232) || (c =? 8233) || (c =? 8239) || (c =? 8287) || (c =? 12288).

Fixpoint lstrip (s : text) : text :=
  match s with
  | c :: s' => if isspace c then lstrip s' else s
  | [] => []
  end.

Definition rstrip (s : text) : text := rev (lstrip (rev s)).

(** [str.strip()] without argument. *)
Definition strip (s : text) : text := rstrip (lstrip s).

(** Truth value of a [str]: non-empty. *)
Definition truthy (s : text) : bool :=
  match s with [] => false | _ :: _ => true end.

(** Code points of an ASCII literal. *)
Fixpoint text_of_string (s : string) : text :=
  match s with
  | EmptyString => []
  | String a s' => N_of_ascii a :: text_of_string s'
  end.

(** ** The regular expression (?im)^\s*GO\s*$ *)

Module Regex.

(** The constructs the pattern uses, under the flags [i] and [m]. *)
Inductive atom : Type :=
| Bol                 (* ^ with MULTILINE: start of text or just after LF *)
| Eol                 (* $ with MULTILINE: end of text or just before LF *)
| Spaces              (* \s* , greedy *)
| Lit (c : N).        (* a letter with IGNORECASE *)

Definition ascii_lower (c : N) : N :=
  if (65 <=? c) && (c <=? 90) then c + 32 else c.

(** IGNORECASE compares lower-cased code points.  No code point outside
    ASCII lower-cases to [g] or [o], so the ASCII rule is exact for the
    two letters of the pattern. *)
Definition eq_ignore_case (c x : N) : bool :=
  ascii_lower x =? ascii_lower c.

Definition at_bol (prev : option N) : bool :=
  match prev with None => true | Some c => c =? LF end.

Definition at_eol (s : text) : bool :=
  match s with [] => true | c :: _ => c =? LF end.

(** [match_here pat prev s] runs [pat] at the position whose previous
    character is [prev] and whose remaining input is [s].  It returns the
    last character before the end of the match together with the input
    left after it.  [Spaces] first takes as many characters as it can and
    gives them back one by one while the rest of the pattern fails. *)
Fixpoint match_here (pat : list atom) : option N -> text -> option (option N * text) :=
  match pat with
  | [] => fun prev s => Some (prev, s)
  | Bol :: k => fun prev s => if at_bol prev then match_here k prev s else None
  | Eol :: k => fun prev s => if at_eol s then match_here k prev s else None
  | Lit c :: k => fun prev s =>
      match s with
      | x :: s' => if eq_ignore_case c x then match_here k (Some x) s' else None
      | [] => None
      end
  | Spaces :: k =>
      fix star (prev : option N) (s : text) {struct s} : option (option N * text) :=
        match s with
        | x :: s' =>
            if isspace x then
              match star (Some x) s' with
              | Some r => Some r
              | None => match_here k prev s
              end
            else match_here k prev s
        | [] => match_here k prev s
        end
  end.

(** Leftmost match at or after the current position: the text skipped
    before the match, the last matched character and the input left. *)
Fixpoint search (pat : list atom) (prev : option N) (s : text)
  : option (text * option N * text) :=
  match match_here pat prev s with
  | Some (prev', rest) => Some ([], prev', rest)
  | None =>
      match s with
      | [] => None
      | c :: s' =>
          match search pat (Some c) s' with
          | Some (skipped, prev', rest) => Some (c :: skipped, prev', rest)
          | None => None
          end
      end
  end.

(** [re.split] for a pattern without groups: the slices between
    successive leftmost matches, then the slice after the last one.  Each
    search starts where the previous match ended.  The fuel bounds the
    number of matches; the length of the text is enough for a pattern
    that cannot match the empty string (see [go_split_unfold]). *)
Fixpoint split_fuel (fuel : nat) (pat : list atom) (prev : option N) (s : text)
  : list text :=
  match fuel with
  | O => [s]
  | S fuel' =>
      match search pat prev s with
      | None => [s]
      | Some (skipped, prev', rest) => skipped :: split_fuel fuel' pat prev' rest
      end
  end.

Definition split (pat : list atom) (s : text) : list text :=
  split_fuel (S (length s)) pat None s.

End Regex.

(** r"(?im)^\s*GO\s*$" *)
Definition GO_SEPARATOR : list Regex.atom :=
  [Regex.Bol; Regex.Spaces; Regex.Lit 71; Regex.Lit 79; Regex.Spaces; Regex.Eol].

(** The list comprehension of [deploy_stored_procedures]:
    [[stmt.strip() for stmt in re.split(...) if stmt.strip()]]. *)
Definition split_statements (sql_script_content : text) : list text :=
  map strip
    (List.filter (fun stmt => truthy (strip stmt))
       (Regex.split GO_SEPARATOR sql_script_content)).

Close Scope N_scope.

(** ** File names *)

(** [filename.endswith(suffix)] *)
Definition endswith (s suffix : string) : bool :=
  String.eqb
    (substring (String.length s - String.length suffix) (String.length suffix) s)
    suffix.

(** Index of the last ["."] of [p], as [p.rfind(".")]. *)
Fixpoint rfind_dot (p : string) : option nat :=
  match p with
  | EmptyString => None
  | String c p' =>
      match rfind_dot p' with
      | Some i => Some (S i)
      | None => if Ascii.eqb c "."%char then Some 0 else None
      end
  end.

Fixpoint all_dots (p : string) : bool :=
  match p with
  | EmptyString => true
  | String c p' => Ascii.eqb c "."%char && all_dots p'
  end.

(** [os.path.splitext(p)[0]] for a name returned by [os.listdir], which has
    no path separator: the name is cut at its last dot unless only dots
    come before it. *)
Definition splitext_root (p : string) : string :=
  match rfind_dot p with
  | Some dotIndex =>
      if all_dots (substring 0 dotIndex p) then p else substring 0 dotIndex p
  | None => p
  end.

(** ** The outside world *)

(** [os.environ] restricted to the variables the program reads. *)
Record environ : Type := {
  DB_SERVER : option string;
  DB_DATABASE : option string;
  DB_USERNAME : option string;
  DB_PASSWORD : option string;
  DB_PORT : option string;
}.

(** An entry of [SP_SCRIPTS_DIR].  [contents = None] stands for an entry
    that [open] cannot read (a directory, a permission error). *)
Record dir_entry : Type := {
  name : string;
  contents : option (list Byte.byte);
}.

(** What the program finds at [SP_SCRIPTS_DIR]. *)
Inductive directory : Type :=
| Missing                            (* os.path.exists is false *)
| Unlistable                         (* the path exists and os.listdir raises
                                        OSError: a file, a directory that may
                                        not be read *)
| Listing (l : list dir_entry).      (* what os.listdir returns *)

(** The entries the loop goes through. *)
Definition entries (dir : directory) : list dir_entry :=
  match dir with
  | Listing l => l
  | Missing | Unlistable => []
  end.

(** What one run of the program finds around it. *)
Record host : Type := {
  env : environ;
  (** does the [i]-th call of [pyodbc.connect] (from 0) succeed? *)
  connect_ok : nat -> bool;
  (** what [os.path.exists] and [os.listdir] find at [SP_SCRIPTS_DIR] *)
  scripts_dir : directory;
}.

(** The SQL texts given to [cursor.execute]. *)
Inductive sql : Type :=
| CreateTableSql                                  (* ensure_metadata_table_exists *)
| SelectHashesSql                                 (* get_deployed_hashes *)
| MergeSql (script_name new_hash : string)        (* update_deployment_metadata *)
| Statement (stmt : text).                        (* one statement of a script *)

(** The database server and the two library functions applied to file
    contents.  A failed [cursor.execute] raises [pyodbc.Error] and may leave
    partial effects in the open transaction.  [cnxn.commit], [cnxn.rollback]
    and [cnxn.close] are taken not to raise: a commit that raised would be
    caught by the handler that catches the failure of the [execute] before
    it. *)
Class Backend : Type := {
  DB : Type;
  run_statement : text -> DB -> DB * bool;
  run_create_table : DB -> DB * bool;
  run_merge : string -> string -> DB -> DB * bool;
  (** rows [(script_name, script_hash)] of the metadata table, [None] when
      the query fails *)
  run_select_hashes : DB -> option (list (string * string));
  (** [hashlib.sha256(data).hexdigest()] *)
  sha256_hexdigest : list Byte.byte -> string;
  (** what reading the file as text with [encoding="utf-8-sig"] gives
      (byte-order mark dropped, line ends translated), [None] for
      [UnicodeDecodeError] *)
  decode_utf8_sig : list Byte.byte -> option text;
}.

(** ** Trace *)

Inductive level : Type := INFO | WARNING | ERROR.

(** One constructor per [logging] call of the program, with the values it
    interpolates (the text of a caught exception apart). *)
Inductive message : Type :=
| AttemptingToConnect
| EnvironmentVariablesMustBeSet
| SuccessfullyConnected
| ConnectionError (attempt max_retries : nat)
| FailedToConnect
| EnsuredTableExists
| ErrorEnsuringTable
| ErrorFetchingHashes
| MetadataUpdated (script_name : string)
| ErrorUpdatingMetadata (script_name : string)
| DirectoryNotFound
| Skipping (filename : string)
| Deploying (filename : string)
| ExecutedStatement (i : nat) (filename : string)
| ErrorInStatement (filename : string) (i : nat)
| SuccessfullyDeployed (filename : string)
| ErrorDeploying (filename : string)
| UnexpectedError (filename : string)
| SummaryHeader
| SummaryDeployed (deployed_count : nat)
| SummarySkipped (skipped_count : nat)
| SummaryErrors (error_count : nat)
| DeploymentFailed
| DeploymentCompleted.

Inductive event : Type :=
| Log (l : level) (m : message)
| Connect (ok : bool)             (* pyodbc.connect *)
| Sleep (seconds : nat)           (* time.sleep *)
| Execute (q : sql) (ok : bool)   (* cursor.execute *)
| Commit                          (* cnxn.commit *)
| Rollback                        (* cnxn.rollback *)
| Close.                          (* cnxn.close *)

(** ** The monad of the program *)

Inductive exn : Type :=
| SystemExit (code : nat)         (* raised by sys.exit, not an Exception *)
| PyodbcError                     (* pyodbc.Error *)
| OSError
| UnicodeDecodeError.

Inductive result (A : Type) : Type :=
| Ret (a : A)
| Raise (e : exn).
Arguments Ret {A} a.
Arguments Raise {A} e.

Section Program.
Context `{Backend}.

(** The database as the connection sees it, the local counters of
    [deploy_stored_procedures] and everything done so far. *)
Record state : Type := {
  committed : DB;
  working : DB;
  deployed_count : nat;
  skipped_count : nat;
  error_count : nat;
  trace : list event;
}.

Definition M (A : Type) : Type := state -> result A * state.

Definition ret {A} (a : A) : M A := fun st => (Ret a, st).

Definition bind {A B} (m : M A) (k : A -> M B) : M B :=
  fun st =>
    match m st with
    | (Ret a, st') => k a st'
    | (Raise e, st') => (Raise e, st')
    end.

Definition raise {A} (e : exn) : M A := fun st => (Raise e, st).

(** [try: body except <handler's classes>: ...]; the handler returns
    [None] on an exception its clauses do not catch. *)
Definition try_except {A} (body : M A) (handler : exn -> option (M A)) : M A :=
  fun st =>
    match body st with
    | (Ret a, st') => (Ret a, st')
    | (Raise e, st') =>
        match handler e with
        | Some h => h st'
        | None => (Raise e, st')
        end
    end.

Definition get {A} (f : state -> A) : M A := fun st => (Ret (f st), st).
Definition modify (f : state -> state) : M unit := fun st => (Ret tt, f st).
End Program.

Notation "x <- m ;; k" := (bind m (fun x => k))
  (at level 100, m at next level, right associativity).
Notation "m ;; k" := (bind m (fun _ => k))
  (at level 100, right associativity).

(** ** main.py *)

Section Main.
Context `{Backend}.

Definition emit (e : event) : M unit :=
  modify (fun st =>
    {| committed := committed st; working := working st;
       deployed_count := deployed_count st; skipped_count := skipped_count st;
       error_count := error_count st; trace := trace st ++ [e] |}).

Definition set_working (d : DB) : M unit :=
  modify (fun st =>
    {| committed := committed st; working := d;
       deployed_count := deployed_count st; skipped_count := skipped_count st;
       error_count := error_count st; trace := trace st |}).

Definition set_committed (d : DB) : M unit :=
  modify (fun st =>
    {| committed := d; working := working st;
       deployed_count := deployed_count st; skipped_count := skipped_count st;
       error_count := error_count st; trace := trace st |}).

(** [deployed_count += 1], [skipped_count += 1], [error_count += 1] *)
Definition incr_deployed : M unit :=
  modify (fun st =>
    {| committed := committed st; working := working st;
       deployed_count := S (deployed_count st); skipped_count := skipped_count st;
       error_count := error_count st; trace := trace st |}).

Definition incr_skipped : M unit :=
  modify (fun st =>
    {| committed := committed st; working := working st;
       deployed_count := deployed_count st; skipped_count := S (skipped_count st);
       error_count := error_count st; trace := trace st |}).

Definition incr_error : M unit :=
  modify (fun st =>
    {| committed := committed st; working := working st;
       deployed_count := deployed_count st; skipped_count := skipped_count st;
       error_count := S (error_count st); trace := trace st |}).

Definition log (l : level) (m : message) : M unit := emit (Log l m).

Definition sys_exit {A} (code : nat) : M A := raise (SystemExit code).

(** [cursor.execute(q)] for the three statements that change the
    database: the working copy takes the effects, also the partial ones
    of a failure, and a failure raises [pyodbc.Error]. *)
Definition cursor_execute (q : sql) (run : DB -> DB * bool) : M unit :=
  d <- get working ;;
  let (d', ok) := run d in
  set_working d' ;;
  emit (Execute q ok) ;;
  if ok then ret tt else raise PyodbcError.

(** [cursor.execute(SELECT ...)] followed by [cursor.fetchall()] *)
Definition cursor_select : M (list (string * string)) :=
  d <- get working ;;
  match run_select_hashes d with
  | Some rows => emit (Execute SelectHashesSql true) ;; ret rows
  | None => emit (Execute SelectHashesSql false) ;; raise PyodbcError
  end.

Definition cnxn_commit : M unit :=
  d <- get working ;; set_committed d ;; emit Commit.

Definition cnxn_rollback : M unit :=
  d <- get committed ;; set_working d ;; emit Rollback.

Definition cnxn_close : M unit := emit Close.

(** Truth value of what [os.getenv] returns. *)
Definition env_truthy (v : option string) : bool :=
  match v with
  | Some s => negb (String.eqb s "")
  | None => false
  end.

Definition max_retries : nat := 10.
Definition retry_delay : nat := 5.

(** The [for i in range(max_retries)] loop of [get_db_connection] and the
    two lines after it. *)
Fixpoint connect_loop (h : host) (range : list nat) : M unit :=
  match range with
  | i :: range' =>
      if connect_ok h i then
        emit (Connect true) ;;
        log INFO SuccessfullyConnected ;;
        ret tt
      else
        emit (Connect false) ;;
        log WARNING (ConnectionError (i + 1) max_retries) ;;
        emit (Sleep retry_delay) ;;
        connect_loop h range'
  | [] =>
      log ERROR FailedToConnect ;;
      sys_exit 1
  end.

Definition get_db_connection (h : host) : M unit :=
  let server := DB_SERVER (env h) in
  let database := DB_DATABASE (env h) in
  let username := DB_USERNAME (env h) in
  let password := DB_PASSWORD (env h) in
  log INFO AttemptingToConnect ;;
  if negb (forallb env_truthy [server; database; username; password]) then
    log ERROR EnvironmentVariablesMustBeSet ;;
    sys_exit 1
  else
    connect_loop h (seq 0 max_retries).

(** The file is read in chunks of 8192 bytes fed to one hasher, which
    gives the digest of the whole contents. *)
Definition calculate_file_hash (f : dir_entry) : M string :=
  match contents f with
  | Some data => ret (sha256_hexdigest data)
  | None => raise OSError
  end.

(** [open(filepath, "r", encoding="utf-8-sig").read()] *)
Definition read_text (f : dir_entry) : M text :=
  match contents f with
  | Some data =>
      match decode_utf8_sig data with
      | Some s => ret s
      | None => raise UnicodeDecodeError
      end
  | None => raise OSError
  end.

Definition ensure_metadata_table_exists : M unit :=
  try_except
    (cursor_execute CreateTableSql run_create_table ;;
     cnxn_commit ;;
     log INFO EnsuredTableExists)
    (fun ex =>
       match ex with
       | PyodbcError => Some (log ERROR ErrorEnsuringTable ;; sys_exit 1)
       | _ => None
       end).

Definition get_deployed_hashes : M (gmap string string) :=
  try_except
    (rows <- cursor_select ;;
     ret (fold_left (fun deployed_hashes row => <[row.1 := row.2]> deployed_hashes)
            rows ∅))
    (fun ex =>
       match ex with
       | PyodbcError => Some (log WARNING ErrorFetchingHashes ;; ret ∅)
       | _ => None
       end).

Definition update_deployment_metadata (script_name new_hash : string) : M unit :=
  try_except
    (cursor_execute (MergeSql script_name new_hash) (run_merge script_name new_hash) ;;
     cnxn_commit ;;
     log INFO (MetadataUpdated script_name))
    (fun ex =>
       match ex with
       | PyodbcError => Some (log ERROR (ErrorUpdatingMetadata script_name) ;; sys_exit 1)
       | _ => None
       end).

(** [except Exception]: everything but [SystemExit]. *)
Definition is_Exception (e : exn) : bool :=
  match e with SystemExit _ => false | _ => true end.

(** The loop [for i, stmt in enumerate(statements, 1)]; a failing
    statement ends it ([break]). *)
Fixpoint execute_statements (filename : string) (i : nat) (statements : list text)
  : M unit :=
  match statements with
  | stmt :: statements' =>
      continue <-
        try_except
          (cursor_execute (Statement stmt) (run_statement stmt) ;;
           cnxn_commit ;;
           log INFO (ExecutedStatement i filename) ;;
           ret true)
          (fun e =>
             if is_Exception e then
               Some (log ERROR (ErrorInStatement filename i) ;;
                     incr_error ;;
                     cnxn_rollback ;;
                     ret false)
             else None) ;;
      if continue then execute_statements filename (S i) statements' else ret tt
  | [] => ret tt
  end.

(** The body of [for filename in os.listdir(SP_SCRIPTS_DIR)]. *)
Definition process_file (deployed_hashes : gmap string string) (f : dir_entry)
  : M unit :=
  let filename := name f in
  if endswith filename ".sql" then
    let script_name := splitext_root filename in
    try_except
      (local_hash <- calculate_file_hash f ;;
       if match deployed_hashes !! script_name with
          | Some h => String.eqb h local_hash
          | None => false
          end
       then
         log INFO (Skipping filename) ;;
         incr_skipped
       else
         log INFO (Deploying filename) ;;
         sql_script_content <- read_text f ;;
         let statements := split_statements sql_script_content in
         execute_statements filename 1 statements ;;
         n <- get error_count ;;
         if Nat.eqb n 0 then
           update_deployment_metadata script_name local_hash ;;
           log INFO (SuccessfullyDeployed filename) ;;
           incr_deployed
         else ret tt)
      (fun ex =>
         match ex with
         | PyodbcError =>
             Some (log ERROR (ErrorDeploying filename) ;; incr_error ;; cnxn_rollback)
         | e =>
             if is_Exception e then
               Some (log ERROR (UnexpectedError filename) ;; incr_error ;; cnxn_rollback)
             else None
         end)
  else ret tt.

Fixpoint for_each {A} (body : A -> M unit) (l : list A) : M unit :=
  match l with
  | x :: l' => body x ;; for_each body l'
  | [] => ret tt
  end.

Definition deploy_stored_procedures (h : host) : M unit :=
  get_db_connection h ;;
  ensure_metadata_table_exists ;;
  deployed_hashes <- get_deployed_hashes ;;
  match scripts_dir h with
  | Missing =>
      log ERROR DirectoryNotFound ;;
      sys_exit 1
  | Unlistable =>
      (* os.listdir raises outside every [try] *)
      raise OSError
  | Listing listing =>
      for_each (process_file deployed_hashes) listing ;;
      cnxn_close ;;
      log INFO SummaryHeader ;;
      deployed <- get deployed_count ;;
      log INFO (SummaryDeployed deployed) ;;
      skipped <- get skipped_count ;;
      log INFO (SummarySkipped skipped) ;;
      errors <- get error_count ;;
      log INFO (SummaryErrors errors) ;;
      if Nat.ltb 0 errors then
        log ERROR DeploymentFailed ;;
        sys_exit 1
      else
        log INFO DeploymentCompleted ;;
        sys_exit 0
  end.

(** The state in which a run starts on the database [d]: no open
    transaction, counters at zero, nothing done yet. *)
Definition start (d : DB) : state :=
  {| committed := d; working := d;
     deployed_count := 0; skipped_count := 0; error_count := 0; trace := [] |}.

(** Exit status of the process: the argument of [sys.exit], or 1 when an
    exception reaches the top level. *)
Definition exit_status (r : result unit) : nat :=
  match r with
  | Ret _ => 0
  | Raise (SystemExit code) => code
  | Raise _ => 1
  end.

Definition run (h : host) (d : DB) : result unit * state :=
  deploy_stored_procedures h (start d).

End Main.

(** ** A small database for running the program

    A stand-in for the server on which the program can be evaluated: the
    metadata table is an association list (absent until created), the rest
    of the database is the list of statements whose effects it holds, and
    a statement fails when its text starts with [THROW]. *)

Module Toy.

Record db : Type := {
  metadata : option (list (string * string));
  applied : list text;
}.

Definition empty : db := {| metadata := None; applied := [] |}.

Definition throws (stmt : text) : bool :=
  match stmt with
  | 84%N :: 72%N :: 82%N :: 79%N :: 87%N :: _ => true
  | _ => false
  end.

Definition statement (stmt : text) (d : db) : db * bool :=
  ({| metadata := metadata d; applied := applied d ++ [stmt] |}, negb (throws stmt)).

Definition create_table (d : db) : db * bool :=
  match metadata d with
  | Some _ => (d, true)
  | None => ({| metadata := Some []; applied := applied d |}, true)
  end.

(** MERGE on the key [script_name]: the row is replaced or added. *)
Definition upsert (script_name new_hash : string) (rows : list (string * string))
  : list (string * string) :=
  List.filter (fun row => negb (String.eqb row.1 script_name)) rows
  ++ [(script_name, new_hash)].

Definition merge (script_name new_hash : string) (d : db) : db * bool :=
  match metadata d with
  | Some rows =>
      ({| metadata := Some (upsert script_name new_hash rows); applied := applied d |},
       true)
  | None => (d, false)
  end.

(** Stands for SHA-256 on the inputs used below: the bytes themselves. *)
Definition digest (data : list Byte.byte) : string := string_of_list_byte data.

(** Decoding of ASCII files. *)
Definition decode (data : list Byte.byte) : option text :=
  Some (map Byte.to_N data).

#[export] Instance backend : Backend := {|
  DB := db;
  run_statement := statement;
  run_create_table := create_table;
  run_merge := merge;
  run_select_hashes := metadata;
  sha256_hexdigest := digest;
  decode_utf8_sig := decode;
|}.

Definition file (filename body : string) : dir_entry :=
  {| name := filename; contents := Some (list_byte_of_string body) |}.

Definition full_env : environ :=
  {| DB_SERVER := Some "db"; DB_DATABASE := Some "app"; DB_USERNAME := Some "sa";
     DB_PASSWORD := Some "secret"; DB_PORT := Some "1433" |}.

Definition host_with (dir : directory) : host :=
  {| env := full_env; connect_ok := fun _ => true; scripts_dir := dir |}.

(** Five scripts; the first one fails, the other four run without error. *)
Definition five_scripts : list dir_entry :=
  [ file "a.sql" "THROW 50000";
    file "b.sql" "SELECT 2";
    file "c.sql" "SELECT 3";
    file "d.sql" "SELECT 4";
    file "e.sql" "SELECT 5" ].

(** The same five scripts with the failing one listed last. *)
Definition five_scripts_failure_last : list dir_entry :=
  [ file "b.sql" "SELECT 2";
    file "c.sql" "SELECT 3";
    file "d.sql" "SELECT 4";
    file "e.sql" "SELECT 5";
    file "a.sql" "THROW 50000" ].

(** One script whose only statement fails. *)
Definition failing_script : list dir_entry := [ file "a.sql" "THROW 50000" ].

(** Every parameter but the port. *)
Definition env_without_port : environ :=
  {| DB_SERVER := Some "db"; DB_DATABASE := Some "app"; DB_USERNAME := Some "sa";
     DB_PASSWORD := Some "secret"; DB_PORT := None |}.

Definition host_without_port : host :=
  {| env := env_without_port; connect_ok := fun _ => true; scripts_dir := Listing [] |}.

Definition newline : string := String (ascii_of_nat 10) EmptyString.

(** A script of three statements, the second of which fails. *)
Definition three_statements : dir_entry :=
  file "proc.sql"
    ("SELECT 1" ++ newline ++ "GO" ++ newline ++
     "THROW 2" ++ newline ++ "GO" ++ newline ++ "SELECT 3").

(** A script holding nothing but a batch separator. *)
Definition only_separator : dir_entry := file "empty.sql" ("GO" ++ newline).

Definition two_scripts : list dir_entry :=
  [ file "b.sql" "SELECT 2"; file "readme.txt" "notes"; file "c.sql" "SELECT 3" ].

(** A database whose metadata table exists and is empty. *)
Definition initialised : db := {| metadata := Some []; applied := [] |}.

(** The states in which a run starts on these two databases. *)
Definition fresh : state := @start backend empty.
Definition ready : state := @start backend initialised.

End Toy.

(** ** What a trace shows *)

(** The script statements given to [cursor.execute], in order. *)
Fixpoint executed (t : list event) : list text :=
  match t with
  | Execute (Statement stmt) _ :: t' => stmt :: executed t'
  | _ :: t' => executed t'
  | [] => []
  end.

(** The metadata upserts attempted: script name and fingerprint. *)
Fixpoint upserts (t : list event) : list (string * string) :=
  match t with
  | Execute (MergeSql script_name new_hash) _ :: t' => (script_name, new_hash) :: upserts t'
  | _ :: t' => upserts t'
  | [] => []
  end.

(** Did the program try to open a connection? *)
Definition is_connect (e : event) : bool :=
  match e with Connect _ => true | _ => false end.

(** The scripts of a listing: its entries named [*.sql]. *)
Definition scripts (listing : list dir_entry) : list dir_entry :=
  List.filter (fun f => endswith (name f) ".sql") listing.

Section Observations.
Context `{Backend}.

(** The state [st] after the events [new]. *)
Definition after (st : state) (new : list event) : state :=
  {| committed := committed st; working := working st;
     deployed_count := deployed_count st; skipped_count := skipped_count st;
     error_count := error_count st; trace := trace st ++ new |}.

(** What a run that has gone through all the entries does last, from
    the state [st] in which the loop ended. *)
Definition summary (st : state) : list event :=
  [Close;
   Log INFO SummaryHeader;
   Log INFO (SummaryDeployed (deployed_count st));
   Log INFO (SummarySkipped (skipped_count st));
   Log INFO (SummaryErrors (error_count st));
   if Nat.ltb 0 (error_count st) then Log ERROR DeploymentFailed
   else Log INFO DeploymentCompleted].

(** The statements of a script that reach the database from the state
    [d]: all of them up to and including the first one that fails. *)
Fixpoint attempted (statements : list text) (d : DB) : list text :=
  match statements with
  | stmt :: statements' =>
      let (d', ok) := run_statement stmt d in
      stmt :: (if ok then attempted statements' d' else [])
  | [] => []
  end.

(** The database after all the statements have run, when none fails. *)
Fixpoint apply_all (statements : list text) (d : DB) : option DB :=
  match statements with
  | stmt :: statements' =>
      let (d', ok) := run_statement stmt d in
      if ok then apply_all statements' d' else None
  | [] => Some d
  end.

(** The fingerprint the metadata table of [d] holds for a script. *)
Definition stored (d : DB) (script_name : string) : option string :=
  match run_select_hashes d with
  | Some rows =>
      fold_left (fun deployed_hashes row => <[row.1 := row.2]> deployed_hashes)
        rows (∅ : gmap string string) !! script_name
  | None => None
  end.

(** The names under which the scripts of a listing are recorded. *)
Definition script_names (listing : list dir_entry) : list string :=
  map (fun f => splitext_root (name f)) (scripts listing).

(** The state of the metadata table between two scripts of a run
    without error: the scripts gone through, [done], are recorded with
    the fingerprint of their contents and the other rows are as loaded
    at startup. *)
Definition recorded (deployed_hashes : gmap string string) (done : list dir_entry)
    (st : state) : Prop :=
  working st = committed st /\
  (forall f, In f (scripts done) ->
     exists data, contents f = Some data /\
       stored (working st) (splitext_root (name f)) = Some (sha256_hexdigest data)) /\
  (forall n, ~ In n (script_names done) -> stored (working st) n = deployed_hashes !! n).

(** The connection parameters the program checks are set and one of the
    ten attempts succeeds. *)
Definition connects (h : host) : Prop :=
  forallb env_truthy
    [DB_SERVER (env h); DB_DATABASE (env h); DB_USERNAME (env h); DB_PASSWORD (env h)]
  = true
  /\ exists i, i < max_retries /\ connect_ok h i = true.

(** The statements a listing can send to the database. *)
Definition script_statement (listing : list dir_entry) (stmt : text) : Prop :=
  exists f data content,
    In f listing /\ contents f = Some data /\
    decode_utf8_sig data = Some content /\ In stmt (split_statements content).

(** What the engine relies on from the metadata table: an upsert that
    succeeds stores the fingerprint under the script's name and leaves the
    other rows alone, and neither the schema check nor the statements of
    the scripts change what the table holds. *)
Record store_laws (listing : list dir_entry) : Prop := {
  merge_stored : forall n h d d',
    run_merge n h d = (d', true) -> stored d' n = Some h;
  merge_other : forall n h d d' n',
    run_merge n h d = (d', true) -> n' <> n -> stored d' n' = stored d n';
  create_table_stored : forall d d' n,
    run_create_table d = (d', true) -> stored d' n = stored d n;
  statement_stored : forall stmt d d' n,
    script_statement listing stmt ->
    run_statement stmt d = (d', true) -> stored d' n = stored d n;
}.
End Observations.

(** ** The splitter as the specification words it

    Split the text into lines, cut at the lines that hold only the keyword,
    join what lies between two cuts, trim, and drop what is empty. *)

Fixpoint lines (s : text) : list text :=
  match s with
  | c :: s' =>
      if N.eqb c LF then [] :: lines s'
      else match lines s' with
           | l :: ls => (c :: l) :: ls
           | [] => [[c]]
           end
  | [] => [[]]
  end.

Fixpoint join_lines (ls : list text) : text :=
  match ls with
  | [] => []
  | [l] => l
  | l :: ls' => l ++ LF :: join_lines ls'
  end.

(** A line holding [GO] in any case, with optional blanks around it. *)
Definition is_separator_line (l : text) : bool :=
  match strip l with
  | [g; o] => Regex.eq_ignore_case 71 g && Regex.eq_ignore_case 79 o
  | _ => false
  end.

(** The groups of lines between separator lines. *)
Fixpoint batches (ls : list text) : list (list text) :=
  match ls with
  | l :: ls' =>
      if is_separator_line l then [] :: batches ls'
      else match batches ls' with
           | b :: bs => (l :: b) :: bs
           | [] => [[l]]
           end
  | [] => [[]]
  end.

Definition statements_by_lines (content : text) : list text :=
  List.filter truthy (map (fun b => strip (join_lines b)) (batches (lines content))).

(** The text of the specification's splitter example. *)
Definition example_script : text :=
  text_of_string "stmtA" ++ [LF] ++ text_of_string "GO" ++ [LF] ++
  text_of_string "stmtB" ++ [LF] ++ text_of_string "  go  " ++ [LF] ++
  text_of_string "stmtC".

(** ** Statements put to the test on concrete runs *)

Section Statements.
Context `{Backend}.

(** Idempotence as the specification states it, for one host and one
    initial database: the second of two runs in succession deploys
    nothing, skips every script and meets no error. *)
Definition second_run_skips_all (h : host) (d : DB) : Prop :=
  let st1 := (run h d).2 in
  let st2 := (run h (committed st1)).2 in
  deployed_count st2 = 0 /\
  skipped_count st2 = length (scripts (entries (scripts_dir h))) /\
  error_count st2 = 0.

(** A call that writes to the database: any [cursor.execute] other
    than the SELECT, and any commit. *)
Definition is_write (e : event) : bool :=
  match e with
  | Execute SelectHashesSql _ => false
  | Execute _ _ => true
  | Commit => true
  | _ => false
  end.

(** The fatal precondition as the specification states it: with the
    scripts directory empty or missing the run ends with a non-zero
    status and has written nothing. *)
Definition fatal_without_writes (h : host) (d : DB) : Prop :=
  (scripts_dir h = Missing \/ scripts_dir h = Listing []) ->
  exit_status (run h d).1 <> 0 /\
  List.filter is_write (trace (run h d).2) = [] /\
  committed (run h d).2 = d.

(** The connection opened at startup is closed by the end of the run. *)
Definition closes_connection (h : host) (d : DB) : Prop :=
  In (Connect true) (trace (run h d).2) -> In Close (trace (run h d).2).

(** A call that executes a statement of a script or upserts a metadata
    record. *)
Definition is_deployment (e : event) : bool :=
  match e with
  | Execute (Statement _) _ => true
  | Execute (MergeSql _ _) _ => true
  | _ => false
  end.

(** [m] adds to the trace only events accepted by [p]. *)
Definition emits {A} (p : event -> bool) (m : M A) : Prop :=
  forall st, exists new, trace (m st).2 = trace st ++ new /\ forallb p new = true.

(** Neither the closing of the connection nor the head of the summary. *)
Definition before_summary (e : event) : bool :=
  match e with
  | Close => false
  | Log _ SummaryHeader => false
  | _ => true
  end.

(** Anything but a metadata upsert that failed. *)
Definition merge_ok (e : event) : bool :=
  match e with
  | Execute (MergeSql _ _) false => false
  | _ => true
  end.
End Statements.

(** ** Notions used to relate the two splitters *)

(** A text of blanks only. *)
Definition blank (s : text) : bool := forallb isspace s.

(** A text without line feed: a line. *)
Definition is_line (s : text) : bool := forallb (fun c => negb (N.eqb c LF)) s.

(** What the list comprehension keeps of the pieces of a split. *)
Definition kept (pieces : list text) : list text :=
  map strip (List.filter (fun stmt => truthy (strip stmt)) pieces).

(** The pieces with [a] put before the first of them. *)
Definition prepend (a : text) (pieces : list text) : list text :=
  match pieces with
  | piece :: pieces' => (a ++ piece) :: pieces'
  | [] => [a]
  end.

(** The greedy [\s*$] on its own: the input is left at the last line feed
    of the run of blanks, or at the end of the text when the run reaches it. *)
Fixpoint spaces_eol (prev : option N) (s : text) : option (option N * text) :=
  match s with
  | x :: s' =>
      if isspace x then
        match spaces_eol (Some x) s' with
        | Some r => Some r
        | None => if N.eqb x LF then Some (prev, s) else None
        end
      else None
  | [] => Some (prev, [])
  end.

(** The letters and the end of the separator, once the blanks before them
    are gone. *)
Definition go_here (s : text) : option (option N * text) :=
  match s with
  | g :: o :: s' =>
      if Regex.eq_ignore_case 71 g && Regex.eq_ignore_case 79 o
      then spaces_eol (Some o) s'
      else None
  | _ => None
  end.

(** [re.split] with the separator pattern, from any position. *)
Definition go_split (prev : option N) (s : text) : list text :=
  Regex.split_fuel (S (length s)) GO_SEPARATOR prev s.

(** The pieces from the start of the lines [ls], with [a] pending. *)
Definition agree_from_line (ls : list text) : Prop :=
  forall prev a,
    Regex.at_bol prev = true ->
    kept (prepend a (go_split prev (join_lines ls)))
    = kept (prepend a (map join_lines (batches ls))).

(** The pieces after a separator whose line ends before the lines [ls]. *)
Definition agree_after_separator (ls : list text) : Prop :=
  forall w p p' rest,
    blank w = true ->
    spaces_eol p (w ++ LF :: join_lines ls) = Some (p', rest) ->
    kept (go_split p' rest) = kept (map join_lines (batches ls)).

(** A text that mentions the keyword without separator line. *)
Definition no_separator_example : text :=
  text_of_string "GOTO done" ++ [LF] ++ text_of_string "SELECT go FROM t GO" ++ [LF] ++
  text_of_string "GO 5".

(** ** Further notions: traces of the stages, the wrapper of deploy.py *)

(** What the statement loop adds to the trace for statements that
    succeed, the first of them numbered [i]. *)
Fixpoint executed_events (filename : string) (i : nat) (statements : list text)
  : list event :=
  match statements with
  | stmt :: statements' =>
      [Execute (Statement stmt) true; Commit; Log INFO (ExecutedStatement i filename)]
      ++ executed_events filename (S i) statements'
  | [] => []
  end.

(** What the retry loop adds to the trace for the failed attempts [l]. *)
Definition failed_attempts (l : list nat) : list event :=
  flat_map (fun i => [Connect false;
                      Log WARNING (ConnectionError (i + 1) 10);
                      Sleep 5]) l.

(** What a run does before it looks at the scripts directory, when the
    connection is obtained at attempt [k] (from 0) and the schema check
    succeeds and leaves the database [d']: the connection, the CREATE TABLE
    and its commit, and the SELECT on the metadata table. *)
Definition startup {B : Backend} (k : nat) (d' : DB) : list event :=
  Log INFO AttemptingToConnect :: failed_attempts (seq 0 k) ++
  [Connect true; Log INFO SuccessfullyConnected;
   Execute CreateTableSql true; Commit; Log INFO EnsuredTableExists] ++
  match run_select_hashes d' with
  | Some _ => [Execute SelectHashesSql true]
  | None => [Execute SelectHashesSql false; Log WARNING ErrorFetchingHashes]
  end.

(** The hash of the last row recorded for a name. *)
Fixpoint last_hash (rows : list (string * string)) (script_name : string)
  : option string :=
  match rows with
  | (n, h) :: rows' =>
      match last_hash rows' script_name with
      | Some h' => Some h'
      | None => if String.eqb n script_name then Some h else None
      end
  | [] => None
  end.

(** The sum of the three counters. *)
Definition accounted {B : Backend} (st : state) : nat :=
  deployed_count st + skipped_count st + error_count st.

(** [deploy()] of deploy.py: what it prints, and how the call of
    [deploy_stored_procedures] between the two [print]s ends. *)
Definition deploy {B : Backend} (h : host) (d : DB)
  : list string * (result unit * state) :=
  let printed := ["Starting deployment orchestration..."%string] in
  match deploy_stored_procedures h (start d) with
  | (Ret _, st) =>
      (printed ++ ["Deployment orchestration finished."%string], (Ret tt, st))
  | (Raise e, st) => (printed, (Raise e, st))
  end.

(** The number of separator lines of a text. *)
Definition separator_count (content : text) : nat :=
  length (List.filter is_separator_line (lines content)).

(** ** Reading a file for its hash *)

#[warnings="-abstract-large-number"]
Definition chunk_size : nat := 8192.

(** [f.read(size)] on a binary file with [rest] left to read: the chunk
    returned and what is left after it. *)
Definition read_chunk (size : nat) (rest : list Byte.byte)
  : list Byte.byte * list Byte.byte :=
  (firstn size rest, skipn size rest).

(** The loop [while chunk := f.read(size): hasher.update(chunk)] of
    [calculate_file_hash].  [fed] is what the hasher has been given so far;
    [fuel] bounds the number of reads, [None] when it runs out. *)
Fixpoint hash_loop (size fuel : nat) (fed rest : list Byte.byte)
  : option (list Byte.byte) :=
  match fuel with
  | 0 => None
  | S fuel' =>
      let (chunk, rest') := read_chunk size rest in
      match chunk with
      | [] => Some fed
      | _ :: _ => hash_loop size fuel' (fed ++ chunk) rest'
      end
  end.

(** [hasher.hexdigest()] after the loop, a hasher that was given [fed]
    having the digest of [fed]. *)
Definition chunked_file_hash {B : Backend} (fuel : nat) (data : list Byte.byte)
  : option string :=
  option_map sha256_hexdigest (hash_loop chunk_size fuel [] data).

(** ** Databases and hosts that refuse part of the work *)

Module Faulty.

(** The database of [Toy] for a user without the right to create tables:
    the schema statement fails. *)
Definition read_only : Backend := {|
  DB := Toy.db;
  run_statement := Toy.statement;
  run_create_table := fun d => (d, false);
  run_merge := Toy.merge;
  run_select_hashes := Toy.metadata;
  sha256_hexdigest := Toy.digest;
  decode_utf8_sig := Toy.decode;
|}.


(** A server that answers from the third attempt on. *)
Definition slow_host : host :=
  {| env := Toy.full_env; connect_ok := fun i => 2 <=? i;
     scripts_dir := Listing Toy.two_scripts |}.

(** A server that never answers. *)
Definition unreachable_host : host :=
  {| env := Toy.full_env; connect_ok := fun _ => false;
     scripts_dir := Listing Toy.two_scripts |}.

(** [DB_PASSWORD] is set, to the empty string. *)
Definition host_with_empty_password : host :=
  {| env := {| DB_SERVER := Some "db"; DB_DATABASE := Some "app";
               DB_USERNAME := Some "sa"; DB_PASSWORD := Some "";
               DB_PORT := Some "1433" |};
     connect_ok := fun _ => true; scripts_dir := Listing Toy.two_scripts |}.

(** An entry that [open] refuses. *)
Definition locked : dir_entry := {| name := "locked.sql"; contents := None |}.

(** The state of a run on [Toy.initialised] after one script failed. *)
Definition one_error : @state Toy.backend :=
  {| committed := Toy.initialised : @DB Toy.backend;
     working := Toy.initialised : @DB Toy.backend;
     deployed_count := 0; skipped_count := 0; error_count := 1; trace := [] |}.

(** A metadata table read with two rows for the same script. *)
Definition two_rows : Toy.db :=
  {| Toy.metadata := Some [("a", "h1"); ("b", "h2"); ("a", "h3")];
     Toy.applied := [] |}.

End Faulty.

(** * Properties *)

(** ** The splitter *)

Section Splitter.
Local Open Scope N_scope.

Lemma isspace_LF : isspace LF = true.
Proof. reflexivity. Qed.

Lemma letter_G x : Regex.eq_ignore_case 71 x = true -> x = 71 \/ x = 103.
Proof.
  unfold Regex.eq_ignore_case, Regex.ascii_lower. simpl.
  destruct ((65 <=? x) && (x <=? 90)) eqn:E; intros H; apply N.eqb_eq in H; lia.
Qed.

Lemma letter_O x : Regex.eq_ignore_case 79 x = true -> x = 79 \/ x = 111.
Proof.
  unfold Regex.eq_ignore_case, Regex.ascii_lower. simpl.
  destruct ((65 <=? x) && (x <=? 90)) eqn:E; intros H; apply N.eqb_eq in H; lia.
Qed.

Lemma letter_G_not_space x : Regex.eq_ignore_case 71 x = true -> isspace x = false.
Proof. intros H. destruct (letter_G x H) as [-> | ->]; reflexivity. Qed.

Lemma letter_O_not_space x : Regex.eq_ignore_case 79 x = true -> isspace x = false.
Proof. intros H. destruct (letter_O x H) as [-> | ->]; reflexivity. Qed.

Lemma space_not_G x : isspace x = true -> Regex.eq_ignore_case 71 x = false.
Proof.
  intros H. destruct (Regex.eq_ignore_case 71 x) eqn:E; [|reflexivity].
  apply letter_G_not_space in E. congruence.
Qed.

Lemma not_space_not_LF x : isspace x = false -> N.eqb x LF = false.
Proof.
  intros H. destruct (N.eqb x LF) eqn:E; [|reflexivity].
  apply N.eqb_eq in E. subst x. discriminate H.
Qed.

(** *** Trimming *)

Lemma blank_app w1 w2 : blank (w1 ++ w2) = blank w1 && blank w2.
Proof. apply forallb_app. Qed.

Lemma blank_rev w : blank (rev w) = blank w.
Proof.
  induction w as [|c w IH]; [reflexivity|].
  simpl. rewrite blank_app, IH. simpl. rewrite andb_true_r. apply andb_comm.
Qed.

Lemma lstrip_blank w : blank w = true -> lstrip w = [].
Proof.
  induction w as [|c w IH]; [reflexivity|]. simpl.
  intros H. apply andb_prop in H. destruct H as (-> & H). now apply IH.
Qed.

Lemma lstrip_app_blank w x : blank w = true -> lstrip (w ++ x) = lstrip x.
Proof.
  induction w as [|c w IH]; [reflexivity|]. simpl.
  intros H. apply andb_prop in H. destruct H as (-> & H). now apply IH.
Qed.

Lemma lstrip_app_not_blank l x : blank l = false -> lstrip (l ++ x) = lstrip l ++ x.
Proof.
  induction l as [|c l IH]; [discriminate|]. simpl.
  destruct (isspace c); simpl; [exact IH|reflexivity].
Qed.

(** A text is its blanks followed by what [lstrip] leaves, which does not
    start with a blank. *)
Lemma lstrip_split s :
  exists w, blank w = true /\ s = w ++ lstrip s /\
            match lstrip s with c :: _ => isspace c = false | [] => True end.
Proof.
  induction s as [|c s (w & Hw & Hs & Hc)].
  - exists []. now repeat split.
  - simpl. destruct (isspace c) eqn:Ec.
    + exists (c :: w). simpl. rewrite Ec, Hw. repeat split; [now f_equal|exact Hc].
    + exists []. now repeat split.
Qed.

Lemma lstrip_nil_blank s : lstrip s = [] -> blank s = true.
Proof.
  induction s as [|c s IH]; [reflexivity|]. simpl.
  destruct (isspace c); [exact IH|discriminate].
Qed.

Lemma rstrip_app_blank x w : blank w = true -> rstrip (x ++ w) = rstrip x.
Proof.
  intros H. unfold rstrip. rewrite rev_app_distr, lstrip_app_blank; [reflexivity|].
  now rewrite blank_rev.
Qed.

Lemma strip_blank w : blank w = true -> strip w = [].
Proof. intros H. unfold strip. now rewrite (lstrip_blank w H). Qed.

Lemma strip_app_blank_l w x : blank w = true -> strip (w ++ x) = strip x.
Proof. intros H. unfold strip. now rewrite lstrip_app_blank. Qed.

Lemma strip_app_blank_r x w : blank w = true -> strip (x ++ w) = strip x.
Proof.
  intros H. unfold strip. destruct (blank x) eqn:Ex.
  - rewrite (lstrip_blank x Ex), lstrip_blank; [reflexivity|].
    now rewrite blank_app, Ex, H.
  - rewrite lstrip_app_not_blank by exact Ex. now apply rstrip_app_blank.
Qed.

(** A text is what [strip] keeps of it, between blanks. *)
Lemma strip_split s :
  exists w1 w2, blank w1 = true /\ blank w2 = true /\ s = w1 ++ strip s ++ w2.
Proof.
  destruct (lstrip_split s) as (w1 & Hw1 & Hs & _).
  destruct (lstrip_split (rev (lstrip s))) as (w2 & Hw2 & Hr & _).
  exists w1, (rev w2). split; [exact Hw1|]. split; [now rewrite blank_rev|].
  unfold strip, rstrip. rewrite <- rev_app_distr, <- Hr, rev_involutive. exact Hs.
Qed.

(** *** The pattern *)

Lemma match_here_spaces k prev s :
  Regex.match_here (Regex.Spaces :: k) prev s =
  match s with
  | x :: s' =>
      if isspace x then
        match Regex.match_here (Regex.Spaces :: k) (Some x) s' with
        | Some r => Some r
        | None => Regex.match_here k prev s
        end
      else Regex.match_here k prev s
  | [] => Regex.match_here k prev s
  end.
Proof. destruct s; reflexivity. Qed.

Lemma match_here_lit c k prev s :
  Regex.match_here (Regex.Lit c :: k) prev s =
  match s with
  | x :: s' => if Regex.eq_ignore_case c x then Regex.match_here k (Some x) s' else None
  | [] => None
  end.
Proof. reflexivity. Qed.

Lemma match_here_eol prev s :
  Regex.match_here [Regex.Eol] prev s = if Regex.at_eol s then Some (prev, s) else None.
Proof. reflexivity. Qed.

Lemma match_here_bol k prev s :
  Regex.match_here (Regex.Bol :: k) prev s =
  if Regex.at_bol prev then Regex.match_here k prev s else None.
Proof. reflexivity. Qed.

Lemma spaces_eol_correct s : forall prev,
  Regex.match_here [Regex.Spaces; Regex.Eol] prev s = spaces_eol prev s.
Proof.
  induction s as [|x s IH]; intros prev; rewrite match_here_spaces, match_here_eol.
  - reflexivity.
  - cbn [spaces_eol Regex.at_eol]. destruct (isspace x) eqn:Ex.
    + rewrite IH. reflexivity.
    + now rewrite (not_space_not_LF x Ex).
Qed.

Lemma letters_correct prev s :
  Regex.match_here [Regex.Lit 71; Regex.Lit 79; Regex.Spaces; Regex.Eol] prev s
  = go_here s.
Proof.
  rewrite match_here_lit. destruct s as [|g [|o s]]; cbn [go_here].
  - reflexivity.
  - rewrite match_here_lit. now destruct (Regex.eq_ignore_case 71 g).
  - rewrite match_here_lit, spaces_eol_correct.
    now destruct (Regex.eq_ignore_case 71 g), (Regex.eq_ignore_case 79 o).
Qed.

(** The separator matches at a position exactly when the position starts
    a line and blanks, the two letters and blanks up to the end of a line
    follow. *)
Lemma go_here_correct prev s :
  Regex.match_here GO_SEPARATOR prev s =
  if Regex.at_bol prev then go_here (lstrip s) else None.
Proof.
  unfold GO_SEPARATOR. rewrite match_here_bol.
  destruct (Regex.at_bol prev); [|reflexivity].
  revert prev. induction s as [|x s IH]; intros prev; rewrite match_here_spaces.
  - apply letters_correct.
  - cbn [lstrip]. destruct (isspace x) eqn:Ex.
    + rewrite IH. destruct (go_here (lstrip s)); [reflexivity|].
      rewrite letters_correct. cbn [go_here].
      rewrite (space_not_G x Ex). now destruct s.
    + apply letters_correct.
Qed.

(** *** The end of a separator *)

Lemma spaces_eol_blank w : forall prev,
  blank w = true -> exists p, spaces_eol prev w = Some (p, []).
Proof.
  induction w as [|c w IH]; intros prev H; [now exists prev|].
  simpl in H. apply andb_prop in H. destruct H as (Hc & Hw).
  destruct (IH (Some c) Hw) as (p & E). exists p. simpl. now rewrite Hc, E.
Qed.

(** Blanks followed by a line feed: the match ends further on if blanks
    lead to another line end, otherwise at this line feed. *)
Lemma spaces_eol_line_feed w t : forall prev,
  blank w = true ->
  exists p,
    spaces_eol prev (w ++ LF :: t) =
    Some (match spaces_eol (Some LF) t with
          | Some r => r
          | None => (p, LF :: t)
          end).
Proof.
  induction w as [|c w IH]; intros prev H.
  - exists prev. cbn [app spaces_eol]. rewrite isspace_LF, N.eqb_refl.
    now destruct (spaces_eol (Some LF) t).
  - simpl in H. apply andb_prop in H. destruct H as (Hc & Hw).
    destruct (IH (Some c) Hw) as (p & E). exists p.
    cbn [app spaces_eol]. now rewrite Hc, E.
Qed.

Lemma spaces_eol_line_feed_cases w t prev :
  blank w = true ->
  exists p' r,
    spaces_eol prev (w ++ LF :: t) = Some (p', r) /\
    (spaces_eol (Some LF) t = Some (p', r) \/
     spaces_eol (Some LF) t = None /\ r = LF :: t).
Proof.
  intros H. destruct (spaces_eol_line_feed w t prev H) as (p & E).
  destruct (spaces_eol (Some LF) t) as [[p' r]|].
  - exists p', r. split; [exact E|]. now left.
  - exists p, (LF :: t). split; [exact E|]. now right.
Qed.

(** Blanks of one line followed by something else: no line end. *)
Lemma spaces_eol_stuck w c t : forall prev,
  blank w = true -> is_line w = true -> isspace c = false ->
  spaces_eol prev (w ++ c :: t) = None.
Proof.
  induction w as [|x w IH]; intros prev Hb Hl Hc.
  - cbn [app spaces_eol]. now rewrite Hc.
  - simpl in Hb, Hl. apply andb_prop in Hb. destruct Hb as (Hx & Hb).
    apply andb_prop in Hl. destruct Hl as (Hn & Hl).
    cbn [app spaces_eol]. rewrite Hx, (IH (Some x) Hb Hl Hc).
    apply negb_true_iff in Hn. now rewrite Hn.
Qed.

Lemma is_line_app l1 l2 : is_line (l1 ++ l2) = is_line l1 && is_line l2.
Proof. apply forallb_app. Qed.

(** Within a line, [\s*$] succeeds only over blanks. *)
Lemma spaces_eol_in_line l tail prev r :
  is_line l = true ->
  spaces_eol prev (l ++ tail) = Some r ->
  blank l = true.
Proof.
  intros Hl E. destruct (blank l) eqn:Hb; [reflexivity|exfalso].
  destruct (lstrip_split l) as (w & Hw & Hs & Hc).
  destruct (lstrip l) as [|c l1] eqn:El.
  - apply lstrip_nil_blank in El. congruence.
  - rewrite Hs, is_line_app in Hl. apply andb_prop in Hl. destruct Hl as (Hlw & _).
    rewrite Hs, <- app_assoc in E. cbn [app] in E.
    now rewrite (spaces_eol_stuck w c _ prev Hw Hlw Hc) in E.
Qed.

Lemma spaces_eol_length s : forall prev p r,
  spaces_eol prev s = Some (p, r) -> (length r <= length s)%nat.
Proof.
  induction s as [|x s IH]; intros prev p r E; simpl in E.
  - injection E as _ <-. reflexivity.
  - destruct (isspace x); [|discriminate].
    destruct (spaces_eol (Some x) s) as [[p1 r1]|] eqn:E1.
    + injection E as _ <-. apply IH in E1. simpl. lia.
    + destruct (x =? LF); [|discriminate]. injection E as _ <-. reflexivity.
Qed.

Lemma lstrip_length s : (length (lstrip s) <= length s)%nat.
Proof.
  induction s as [|c s IH]; [reflexivity|]. simpl.
  destruct (isspace c); simpl; lia.
Qed.

Lemma match_length prev s p r :
  Regex.match_here GO_SEPARATOR prev s = Some (p, r) -> (length r < length s)%nat.
Proof.
  rewrite go_here_correct. destruct (Regex.at_bol prev); [|discriminate].
  pose proof (lstrip_length s) as Hl.
  destruct (lstrip s) as [|g [|o t]]; try discriminate. cbn [go_here].
  destruct (_ && _); [|discriminate]. intros E. apply spaces_eol_length in E.
  simpl in Hl. lia.
Qed.

Lemma search_length s : forall prev skipped p r,
  Regex.search GO_SEPARATOR prev s = Some (skipped, p, r) ->
  (length r < length s)%nat.
Proof.
  induction s as [|c s IH]; intros prev skipped p r; cbn [Regex.search].
  - destruct (Regex.match_here GO_SEPARATOR prev []) as [[p1 r1]|] eqn:E;
      [|discriminate].
    apply match_length in E. simpl in E. lia.
  - destruct (Regex.match_here GO_SEPARATOR prev (c :: s)) as [[p1 r1]|] eqn:E.
    + intros [= _ _ <-]. now apply match_length in E.
    + destruct (Regex.search GO_SEPARATOR (Some c) s) as [[[sk p1] r1]|] eqn:E1;
        [|discriminate].
      intros [= _ _ <-]. apply IH in E1. simpl. lia.
Qed.

(** *** The split, one match at a time *)

Lemma split_fuel_enough fuel1 : forall fuel2 prev s,
  (length s < fuel1)%nat -> (length s < fuel2)%nat ->
  Regex.split_fuel fuel1 GO_SEPARATOR prev s
  = Regex.split_fuel fuel2 GO_SEPARATOR prev s.
Proof.
  induction fuel1 as [|fuel1 IH]; intros fuel2 prev s H1 H2; [lia|].
  destruct fuel2 as [|fuel2]; [lia|]. cbn [Regex.split_fuel].
  destruct (Regex.search GO_SEPARATOR prev s) as [[[sk p] r]|] eqn:E; [|reflexivity].
  apply search_length in E. f_equal. apply IH; lia.
Qed.

Lemma go_split_unfold prev s :
  go_split prev s =
  match Regex.search GO_SEPARATOR prev s with
  | Some (skipped, p, r) => skipped :: go_split p r
  | None => [s]
  end.
Proof.
  unfold go_split.
  change (Regex.split_fuel (S (length s)) GO_SEPARATOR prev s) with
    (match Regex.search GO_SEPARATOR prev s with
     | Some (skipped, p, r) => skipped :: Regex.split_fuel (length s) GO_SEPARATOR p r
     | None => [s]
     end).
  destruct (Regex.search GO_SEPARATOR prev s) as [[[sk p] r]|] eqn:E; [|reflexivity].
  apply search_length in E. f_equal. apply split_fuel_enough; lia.
Qed.

Lemma go_split_nil prev : go_split prev [] = [[]].
Proof.
  rewrite go_split_unfold. cbn [Regex.search]. rewrite go_here_correct.
  now destruct (Regex.at_bol prev).
Qed.

Lemma go_split_not_nil prev s : go_split prev s <> [].
Proof.
  rewrite go_split_unfold.
  now destruct (Regex.search GO_SEPARATOR prev s) as [[[sk p] r]|].
Qed.

Lemma prepend_nil pieces : pieces <> [] -> prepend [] pieces = pieces.
Proof. now destruct pieces. Qed.

Lemma prepend_prepend a b pieces : prepend a (prepend b pieces) = prepend (a ++ b) pieces.
Proof. destruct pieces; simpl; now rewrite <- ?app_assoc. Qed.

Lemma search_here pat prev s p r :
  Regex.match_here pat prev s = Some (p, r) ->
  Regex.search pat prev s = Some ([], p, r).
Proof. intros E. destruct s; cbn [Regex.search]; now rewrite E. Qed.

(** A search that finds nothing at the start of a line goes on after it. *)
Lemma search_skip_line t l : forall prev,
  is_line l = true ->
  Regex.match_here GO_SEPARATOR prev (l ++ LF :: t) = None ->
  Regex.search GO_SEPARATOR prev (l ++ LF :: t) =
  match Regex.search GO_SEPARATOR (Some LF) t with
  | Some (skipped, p, r) => Some (l ++ LF :: skipped, p, r)
  | None => None
  end.
Proof.
  induction l as [|c l IH]; intros prev Hl Hm.
  - cbn [app] in *. cbn [Regex.search]. rewrite Hm. reflexivity.
  - simpl in Hl. apply andb_prop in Hl. destruct Hl as (Hc & Hl).
    cbn [app] in *. cbn [Regex.search]. rewrite Hm, IH.
    + now destruct (Regex.search GO_SEPARATOR (Some LF) t) as [[[sk p] r]|].
    + exact Hl.
    + rewrite go_here_correct. cbn [Regex.at_bol].
      apply negb_true_iff in Hc. now rewrite Hc.
Qed.

Lemma search_last_line l : forall prev,
  is_line l = true ->
  Regex.match_here GO_SEPARATOR prev l = None ->
  Regex.search GO_SEPARATOR prev l = None.
Proof.
  induction l as [|c l IH]; intros prev Hl Hm; cbn [Regex.search]; rewrite Hm.
  - reflexivity.
  - simpl in Hl. apply andb_prop in Hl. destruct Hl as (Hc & Hl).
    rewrite IH; [reflexivity|exact Hl|].
    rewrite go_here_correct. cbn [Regex.at_bol].
    apply negb_true_iff in Hc. now rewrite Hc.
Qed.

Lemma go_split_skip_line prev l t :
  is_line l = true ->
  Regex.match_here GO_SEPARATOR prev (l ++ LF :: t) = None ->
  go_split prev (l ++ LF :: t) = prepend (l ++ [LF]) (go_split (Some LF) t).
Proof.
  intros Hl Hm. rewrite (go_split_unfold prev), (go_split_unfold (Some LF)).
  rewrite (search_skip_line t l prev Hl Hm).
  destruct (Regex.search GO_SEPARATOR (Some LF) t) as [[[sk p] r]|];
    cbn [prepend]; now rewrite <- app_assoc.
Qed.

(** *** What is kept of the pieces *)

Lemma kept_cons x pieces :
  kept (x :: pieces) = (if truthy (strip x) then [strip x] else []) ++ kept pieces.
Proof. unfold kept. simpl. now destruct (truthy (strip x)). Qed.

Lemma kept_cons_strip x y pieces1 pieces2 :
  strip x = strip y -> kept pieces1 = kept pieces2 ->
  kept (x :: pieces1) = kept (y :: pieces2).
Proof. intros E1 E2. now rewrite !kept_cons, E1, E2. Qed.

Lemma kept_prepend_blank w pieces :
  blank w = true -> pieces <> [] -> kept (prepend w pieces) = kept pieces.
Proof.
  intros Hw Hp. destruct pieces as [|x pieces]; [congruence|].
  cbn [prepend]. apply kept_cons_strip; [|reflexivity]. now apply strip_app_blank_l.
Qed.

(** A search may as well start after a line feed. *)
Lemma go_split_after_line_feed prev s :
  kept (go_split prev (LF :: s)) = kept (go_split (Some LF) s).
Proof.
  rewrite (go_split_unfold prev), (go_split_unfold (Some LF)).
  cbn [Regex.search]. rewrite (go_here_correct prev).
  assert (Hm : Regex.match_here GO_SEPARATOR (Some LF) s = go_here (lstrip s)).
  { rewrite go_here_correct. reflexivity. }
  cbn [lstrip]. rewrite isspace_LF.
  assert (Hskip :
    kept (match
            match Regex.search GO_SEPARATOR (Some LF) s with
            | Some (skipped, prev', rest) => Some (LF :: skipped, prev', rest)
            | None => None
            end
          with
          | Some (skipped, p, r) => skipped :: go_split p r
          | None => [LF :: s]
          end)
    = kept (match Regex.search GO_SEPARATOR (Some LF) s with
            | Some (skipped, p, r) => skipped :: go_split p r
            | None => [s]
            end)).
  { destruct (Regex.search GO_SEPARATOR (Some LF) s) as [[[sk p] r]|];
      (apply kept_cons_strip; [|reflexivity]);
      apply (strip_app_blank_l [LF]); reflexivity. }
  destruct (Regex.at_bol prev); [|exact Hskip].
  destruct (go_here (lstrip s)) as [[p r]|] eqn:E; [|exact Hskip].
  now rewrite (search_here _ _ _ _ _ Hm).
Qed.

(** *** Lines *)

Lemma join_lines_cons l ls :
  join_lines (l :: ls) = l ++ match ls with [] => [] | _ :: _ => LF :: join_lines ls end.
Proof. destruct ls; simpl; [now rewrite app_nil_r|reflexivity]. Qed.

Lemma lines_not_nil s : lines s <> [].
Proof.
  destruct s as [|c s]; simpl; [discriminate|].
  destruct (c =? LF); [discriminate|]. now destruct (lines s).
Qed.

Lemma lines_are_lines s : forallb is_line (lines s) = true.
Proof.
  induction s as [|c s IH]; [reflexivity|]. simpl.
  destruct (c =? LF) eqn:Ec; [exact IH|].
  destruct (lines s) as [|l ls]; simpl in *; now rewrite Ec.
Qed.

Lemma join_lines_lines s : join_lines (lines s) = s.
Proof.
  induction s as [|c s IH]; [reflexivity|]. simpl.
  destruct (c =? LF) eqn:Ec.
  - apply N.eqb_eq in Ec. subst c. rewrite join_lines_cons.
    pose proof (lines_not_nil s). destruct (lines s); [congruence|]. now rewrite IH.
  - pose proof (lines_not_nil s). destruct (lines s) as [|l ls]; [congruence|].
    rewrite join_lines_cons in *. cbn [app]. now rewrite IH.
Qed.

Lemma batches_not_nil ls : exists b bs, batches ls = b :: bs.
Proof.
  destruct ls as [|l ls]; simpl; [eauto|].
  destruct (is_separator_line l); [eauto|]. destruct (batches ls); eauto.
Qed.

Lemma batches_line l ls :
  is_separator_line l = false ->
  exists b bs, batches ls = b :: bs /\ batches (l :: ls) = (l :: b) :: bs.
Proof.
  intros H. destruct (batches_not_nil ls) as (b & bs & E).
  exists b, bs. split; [exact E|]. simpl. now rewrite H, E.
Qed.

(** *** Separator lines *)

Lemma separator_line_split l :
  is_separator_line l = true ->
  exists w1 g o w2,
    blank w1 = true /\ blank w2 = true /\
    Regex.eq_ignore_case 71 g = true /\ Regex.eq_ignore_case 79 o = true /\
    l = w1 ++ g :: o :: w2.
Proof.
  unfold is_separator_line. intros H.
  destruct (strip_split l) as (w1 & w2 & H1 & H2 & E).
  destruct (strip l) as [|g [|o [|x t]]]; try discriminate.
  apply andb_prop in H. destruct H as (Hg & Ho).
  exists w1, g, o, w2. now repeat split.
Qed.

Lemma blank_not_separator l : blank l = true -> is_separator_line l = false.
Proof. intros H. unfold is_separator_line. now rewrite (strip_blank l H). Qed.

Lemma strip_letters w1 g o w2 :
  blank w1 = true -> blank w2 = true ->
  isspace g = false -> isspace o = false ->
  strip (w1 ++ g :: o :: w2) = [g; o].
Proof.
  intros H1 H2 Hg Ho. rewrite strip_app_blank_l by exact H1.
  change (g :: o :: w2) with ([g; o] ++ w2). rewrite strip_app_blank_r by exact H2.
  unfold strip, rstrip. simpl. rewrite Hg. simpl. rewrite Ho. reflexivity.
Qed.

(** At the start of a separator line the pattern matches, up to where
    [\s*$] leads. *)
Lemma match_separator_line prev w1 g o w2 tail :
  Regex.at_bol prev = true ->
  blank w1 = true ->
  Regex.eq_ignore_case 71 g = true -> Regex.eq_ignore_case 79 o = true ->
  Regex.match_here GO_SEPARATOR prev ((w1 ++ g :: o :: w2) ++ tail)
  = spaces_eol (Some o) (w2 ++ tail).
Proof.
  intros Hb H1 Hg Ho. rewrite go_here_correct, Hb, <- app_assoc.
  rewrite lstrip_app_blank by exact H1. cbn [app lstrip].
  rewrite (letter_G_not_space g Hg). cbn [go_here]. now rewrite Hg, Ho.
Qed.

(** A line that is neither blank nor a separator stops the pattern. *)
Lemma match_other_line l tail r :
  is_line l = true ->
  blank l = false ->
  (tail = [] \/ exists t, tail = LF :: t) ->
  go_here (lstrip (l ++ tail)) = Some r ->
  is_separator_line l = true.
Proof.
  intros Hl Hb Ht E. rewrite lstrip_app_not_blank in E by exact Hb.
  destruct (lstrip_split l) as (w & Hw & Hs & Hc).
  destruct (lstrip l) as [|g l1] eqn:El.
  { apply lstrip_nil_blank in El. congruence. }
  destruct l1 as [|o l2].
  { cbn [app go_here] in E. destruct Ht as [-> | (t & ->)]; [discriminate|].
    destruct (Regex.eq_ignore_case 79 LF) eqn:Eo.
    - apply letter_O_not_space in Eo. discriminate Eo.
    - now rewrite andb_false_r in E. }
  cbn [app go_here] in E.
  destruct (Regex.eq_ignore_case 71 g) eqn:Hg; [|discriminate].
  destruct (Regex.eq_ignore_case 79 o) eqn:Ho; [|discriminate]. cbn [andb] in E.
  rewrite Hs, !is_line_app in Hl. apply andb_prop in Hl. destruct Hl as (_ & Hl).
  change (g :: o :: l2) with ([g; o] ++ l2) in Hl. rewrite is_line_app in Hl.
  apply andb_prop in Hl. destruct Hl as (_ & Hl2).
  pose proof (spaces_eol_in_line l2 tail (Some o) r Hl2 E) as Hb2.
  unfold is_separator_line. rewrite Hs.
  rewrite (strip_letters w g o l2 Hw Hb2 (letter_G_not_space g Hg)
             (letter_O_not_space o Ho)).
  now rewrite Hg, Ho.
Qed.

(** *** The two splitters agree *)

Lemma kept_batches_line a l ls :
  is_separator_line l = false ->
  kept (prepend a (map join_lines (batches (l :: ls))))
  = kept (prepend (a ++ l ++ [LF]) (map join_lines (batches ls))).
Proof.
  intros H. destruct (batches_line l ls H) as (b & bs & -> & ->).
  cbn [map prepend]. apply kept_cons_strip; [|reflexivity].
  rewrite join_lines_cons. destruct b as [|l2 b].
  - cbn [join_lines]. rewrite !app_nil_r, app_assoc.
    now rewrite (strip_app_blank_r (a ++ l) [LF]).
  - now rewrite <- !app_assoc.
Qed.

Lemma agree_from_line_step l ls :
  is_line l = true ->
  (ls <> [] -> agree_from_line ls /\ agree_after_separator ls) ->
  agree_from_line (l :: ls).
Proof.
  intros Hl IH prev a Hbol. rewrite join_lines_cons.
  destruct (is_separator_line l) eqn:Hsep.
  - destruct (separator_line_split l Hsep) as (w1 & g & o & w2 & H1 & H2 & Hg & Ho & ->).
    cbn [batches]. rewrite Hsep. cbn [map prepend join_lines].
    rewrite go_split_unfold.
    pose proof (match_separator_line prev w1 g o w2
                  match ls with [] => [] | _ :: _ => LF :: join_lines ls end
                  Hbol H1 Hg Ho) as Hm.
    destruct ls as [|l2 ls2].
    + destruct (spaces_eol_blank (w2 ++ []) (Some o)) as (p & E).
      { now rewrite app_nil_r. }
      rewrite E in Hm. rewrite (search_here _ _ _ _ _ Hm). cbn [prepend].
      now rewrite go_split_nil.
    + destruct (spaces_eol_line_feed_cases w2 (join_lines (l2 :: ls2)) (Some o) H2)
        as (p' & rest & E & _).
      destruct IH as (_ & IHQ); [discriminate|].
      rewrite E in Hm. rewrite (search_here _ _ _ _ _ Hm). cbn [prepend].
      apply kept_cons_strip; [reflexivity|].
      exact (IHQ w2 (Some o) p' rest H2 E).
  - rewrite (kept_batches_line a l ls Hsep).
    destruct ls as [|l2 ls2].
    + rewrite app_nil_r.
      assert (Hm : Regex.match_here GO_SEPARATOR prev l = None).
      { rewrite go_here_correct, Hbol.
        destruct (go_here (lstrip l)) as [r|] eqn:E; [exfalso|reflexivity].
        destruct (blank l) eqn:Hb.
        - rewrite (lstrip_blank l Hb) in E. discriminate E.
        - rewrite <- (app_nil_r l) in E.
          rewrite (match_other_line l [] r Hl Hb (or_introl eq_refl) E) in Hsep.
          discriminate Hsep. }
      rewrite go_split_unfold, (search_last_line l prev Hl Hm).
      cbn [batches map join_lines prepend]. rewrite app_nil_r.
      apply kept_cons_strip; [|reflexivity].
      rewrite app_assoc. symmetry. now apply strip_app_blank_r.
    + destruct IH as (IHP & _); [discriminate|].
      rewrite <- (IHP (Some LF) (a ++ l ++ [LF]) eq_refl).
      destruct (Regex.match_here GO_SEPARATOR prev (l ++ LF :: join_lines (l2 :: ls2)))
        as [[p r]|] eqn:Hm.
      * assert (Hb : blank l = true).
        { destruct (blank l) eqn:Hb; [reflexivity|exfalso].
          rewrite go_here_correct, Hbol in Hm.
          rewrite (match_other_line l _ _ Hl Hb (or_intror (ex_intro _ _ eq_refl)) Hm)
            in Hsep.
          discriminate Hsep. }
        assert (Hm' : Regex.match_here GO_SEPARATOR (Some LF) (join_lines (l2 :: ls2))
                      = Some (p, r)).
        { rewrite go_here_correct in *. rewrite Hbol in Hm. cbn [Regex.at_bol].
          rewrite N.eqb_refl. rewrite <- Hm.
          change (l ++ LF :: join_lines (l2 :: ls2))
            with (l ++ [LF] ++ join_lines (l2 :: ls2)).
          rewrite app_assoc, lstrip_app_blank; [reflexivity|].
          now rewrite blank_app, Hb. }
        rewrite (go_split_unfold prev), (go_split_unfold (Some LF)).
        rewrite (search_here _ _ _ _ _ Hm), (search_here _ _ _ _ _ Hm').
        cbn [prepend]. apply kept_cons_strip; [|reflexivity].
        rewrite !app_nil_r. symmetry. apply strip_app_blank_r.
        now rewrite blank_app, Hb.
      * now rewrite (go_split_skip_line prev l _ Hl Hm), prepend_prepend.
Qed.

Lemma agree_after_separator_step l ls :
  is_line l = true ->
  (ls <> [] -> agree_after_separator ls) ->
  agree_from_line (l :: ls) ->
  agree_after_separator (l :: ls).
Proof.
  intros Hl IHQ HP w p p' rest Hw E.
  destruct (spaces_eol_line_feed_cases w (join_lines (l :: ls)) p Hw)
    as (p1 & r1 & E1 & Hcase).
  rewrite E1 in E. injection E as -> ->. clear E1.
  destruct (blank l) eqn:Hb.
  - pose proof (blank_not_separator l Hb) as Hsep.
    destruct ls as [|l2 ls2].
    + cbn [join_lines] in Hcase.
      destruct (spaces_eol_blank l (Some LF) Hb) as (p2 & E2).
      rewrite E2 in Hcase. destruct Hcase as [[= _ <-]|[[=] _]].
      rewrite go_split_nil.
      cbn [batches]. rewrite Hsep. cbn [batches map join_lines].
      now rewrite !kept_cons, (strip_blank l Hb), (strip_blank [] eq_refl).
    + rewrite join_lines_cons in Hcase.
      destruct (spaces_eol_line_feed_cases l (join_lines (l2 :: ls2)) (Some LF) Hb)
        as (p2 & r2 & E2 & _).
      rewrite E2 in Hcase. destruct Hcase as [[= <- <-]|[[=] _]].
      rewrite (IHQ ltac:(discriminate) l (Some LF) p2 r2 Hb E2).
      pose proof (kept_batches_line [] l (l2 :: ls2) Hsep) as K.
      destruct (batches_not_nil (l :: l2 :: ls2)) as (b & bs & Eb).
      destruct (batches_not_nil (l2 :: ls2)) as (b' & bs' & Eb').
      rewrite prepend_nil in K by (rewrite Eb; discriminate).
      rewrite K. symmetry. apply kept_prepend_blank.
      * cbn [app]. now rewrite blank_app, Hb.
      * rewrite Eb'. discriminate.
  - destruct (lstrip_split l) as (ws & Hws & Hs & Hc).
    destruct (lstrip l) as [|c l1] eqn:El.
    { apply lstrip_nil_blank in El. congruence. }
    assert (Hstuck : spaces_eol (Some LF) (join_lines (l :: ls)) = None).
    { rewrite join_lines_cons, Hs, <- app_assoc. cbn [app].
      apply spaces_eol_stuck; try assumption.
      rewrite Hs, is_line_app in Hl. now apply andb_prop in Hl. }
    rewrite Hstuck in Hcase. destruct Hcase as [[=]|[_ ->]].
    rewrite go_split_after_line_feed.
    specialize (HP (Some LF) [] eq_refl).
    destruct (batches_not_nil (l :: ls)) as (b & bs & Eb).
    rewrite !prepend_nil in HP;
      [exact HP | rewrite Eb; discriminate | apply go_split_not_nil].
Qed.

Lemma splitters_agree_on_lines ls :
  ls <> [] -> forallb is_line ls = true ->
  agree_from_line ls /\ agree_after_separator ls.
Proof.
  induction ls as [|l ls IH]; [congruence|]. intros _ H.
  simpl in H. apply andb_prop in H. destruct H as (Hl & Hls).
  assert (HP : agree_from_line (l :: ls)).
  { apply agree_from_line_step; [exact Hl|]. intros Hne. now apply IH. }
  split; [exact HP|].
  apply agree_after_separator_step; [exact Hl| |exact HP].
  intros Hne. now apply IH.
Qed.

(** The statements the program extracts are those between the separator
    lines of the script. *)
Lemma split_statements_by_lines content :
  split_statements content = statements_by_lines content.
Proof.
  unfold split_statements, statements_by_lines.
  change (map strip (List.filter (fun stmt => truthy (strip stmt))
                       (Regex.split GO_SEPARATOR content)))
    with (kept (go_split None content)).
  destruct (splitters_agree_on_lines (lines content) (lines_not_nil content)
              (lines_are_lines content)) as (HP & _).
  specialize (HP None [] eq_refl). rewrite join_lines_lines in HP.
  destruct (batches_not_nil (lines content)) as (b & bs & Eb).
  rewrite !prepend_nil in HP;
    [| rewrite Eb; discriminate | apply go_split_not_nil].
  rewrite HP. unfold kept. rewrite <- (List.map_map join_lines strip).
  generalize (map join_lines (batches (lines content))). intros pieces.
  induction pieces as [|x pieces IH]; [reflexivity|]. simpl.
  destruct (truthy (strip x)); simpl; now rewrite IH.
Qed.

(** *** Consequences *)

Lemma lines_app a t : lines (a ++ LF :: t) = lines a ++ lines t.
Proof.
  induction a as [|c a IH].
  - cbn [app lines]. now rewrite N.eqb_refl.
  - cbn [app lines]. destruct (c =? LF); rewrite IH; [reflexivity|].
    pose proof (lines_not_nil a). now destruct (lines a).
Qed.

Lemma lines_line l : is_line l = true -> lines l = [l].
Proof.
  induction l as [|c l IH]; [reflexivity|]. simpl.
  intros H. apply andb_prop in H. destruct H as (Hc & Hl).
  apply negb_true_iff in Hc. now rewrite Hc, (IH Hl).
Qed.

Lemma batches_app la sep lb :
  is_separator_line sep = true ->
  batches (la ++ sep :: lb) = batches la ++ batches lb.
Proof.
  intros Hsep. induction la as [|l la IH]; cbn [app batches].
  - now rewrite Hsep.
  - rewrite IH. destruct (is_separator_line l); [reflexivity|].
    destruct (batches_not_nil la) as (b & bs & ->). reflexivity.
Qed.

Lemma batches_no_separator ls :
  forallb (fun l => negb (is_separator_line l)) ls = true -> batches ls = [ls].
Proof.
  induction ls as [|l ls IH]; [reflexivity|]. simpl.
  intros H. apply andb_prop in H. destruct H as (Hl & Hls).
  apply negb_true_iff in Hl. now rewrite Hl, (IH Hls).
Qed.

Lemma strip_nil_blank s : strip s = [] -> blank s = true.
Proof.
  unfold strip, rstrip. intros H.
  destruct (lstrip_split s) as (w & Hw & Hs & _).
  assert (Hr : lstrip (rev (lstrip s)) = []).
  { now rewrite <- (rev_involutive (lstrip (rev (lstrip s)))), H. }
  apply lstrip_nil_blank in Hr. rewrite blank_rev in Hr.
  now rewrite Hs, blank_app, Hw, Hr.
Qed.

Lemma blank_join_lines l b :
  blank (join_lines (l :: b)) = blank l && blank (join_lines b).
Proof.
  rewrite join_lines_cons, blank_app. destruct b; [reflexivity|].
  cbn [blank forallb]. now rewrite isspace_LF.
Qed.

Lemma blank_batches ls :
  forallb (fun b => blank (join_lines b)) (batches ls)
  = forallb (fun l => blank l || is_separator_line l) ls.
Proof.
  induction ls as [|l ls IH]; [reflexivity|]. cbn [batches forallb].
  destruct (is_separator_line l) eqn:Hsep.
  - cbn [forallb]. rewrite IH, orb_true_r. reflexivity.
  - rewrite orb_false_r, <- IH.
    destruct (batches_not_nil ls) as (b & bs & ->). cbn [forallb].
    now rewrite blank_join_lines, andb_assoc.
Qed.

(** The scripts without statement are those whose lines are all blank or
    separators. *)
Lemma no_statement_iff content :
  split_statements content = [] <->
  forallb (fun l => blank l || is_separator_line l) (lines content) = true.
Proof.
  rewrite split_statements_by_lines, <- blank_batches. unfold statements_by_lines.
  generalize (batches (lines content)). intros bs.
  induction bs as [|b bs IH]; [now split|]. cbn [map List.filter forallb].
  destruct (strip (join_lines b)) as [|c t] eqn:E; cbn [truthy].
  - rewrite (strip_nil_blank _ E). exact IH.
  - split; [discriminate|]. intros H. apply andb_prop in H. destruct H as (H & _).
    apply strip_blank in H. congruence.
Qed.

(** C5: the splitter cuts the text exactly at the lines that hold only GO
    (any case, blanks around it), trims what lies between two cuts, drops
    what is empty and keeps the source order: it agrees with
    [statements_by_lines] on every text, yields the three statements of the
    example, distributes over a separator line, and leaves a text without
    separator line in one piece, as it does when GO is part of a longer
    word or stands in the middle of a line. *)
Theorem splitter_correct :
  (forall content, split_statements content = statements_by_lines content) /\
  split_statements example_script
  = [text_of_string "stmtA"; text_of_string "stmtB"; text_of_string "stmtC"] /\
  (forall a sep b,
     is_line sep = true -> is_separator_line sep = true ->
     split_statements (a ++ LF :: sep ++ LF :: b)
     = split_statements a ++ split_statements b) /\
  (forall content,
     forallb (fun l => negb (is_separator_line l)) (lines content) = true ->
     split_statements content
     = if truthy (strip content) then [strip content] else []) /\
  split_statements no_separator_example = [no_separator_example].
Proof.
  split; [exact split_statements_by_lines|].
  split; [vm_compute; reflexivity|].
  split; [|split; [|vm_compute; reflexivity]].
  - intros a sep b Hl Hsep. rewrite !split_statements_by_lines.
    unfold statements_by_lines.
    rewrite lines_app, lines_app, (lines_line sep Hl). cbn [app].
    rewrite (batches_app _ _ _ Hsep), map_app. apply List.filter_app.
  - intros content H. rewrite split_statements_by_lines. unfold statements_by_lines.
    rewrite (batches_no_separator _ H). cbn [map List.filter].
    rewrite join_lines_lines. now destruct (strip content).
Qed.

End Splitter.

(** ** File names *)

Example script_name_plain : splitext_root "usp_orders.sql" = "usp_orders".
Proof. reflexivity. Qed.

Example script_name_dotted : splitext_root "dbo.usp_orders.sql" = "dbo.usp_orders".
Proof. reflexivity. Qed.

(** A name made of the extension alone is kept whole, as [os.path.splitext]
    leaves leading dots to the root. *)
Example script_name_hidden : splitext_root ".sql" = ".sql".
Proof. reflexivity. Qed.

Example only_sql_entries :
  map name (scripts [ {| name := "a.sql"; contents := None |};
                      {| name := "a.SQL"; contents := None |};
                      {| name := "sql"; contents := None |};
                      {| name := "notes.txt"; contents := None |} ])
  = ["a.sql"].
Proof. reflexivity. Qed.

(** ** Running the monad *)

Section Engine.
Context `{Backend}.

(** Run the straight-line part of a program. *)
Ltac exec :=
  repeat (progress
    (unfold try_except, bind, cursor_execute, cursor_select,
       cnxn_commit, cnxn_rollback, cnxn_close, log, emit,
       incr_deployed, incr_skipped, incr_error, set_working, set_committed,
       modify, get, ret, raise, sys_exit; simpl)).

Lemma bind_ret {A B} (m : M A) (k : A -> M B) st a st' :
  m st = (Ret a, st') -> bind m k st = k a st'.
Proof. intros E. unfold bind. now rewrite E. Qed.

Lemma bind_raise {A B} (m : M A) (k : A -> M B) st e st' :
  m st = (Raise e, st') -> bind m k st = (Raise e, st').
Proof. intros E. unfold bind. now rewrite E. Qed.

Lemma stored_hash_test (deployed_hashes : gmap string string) n h :
  match deployed_hashes !! n with
  | Some h' => String.eqb h' h
  | None => false
  end = true <-> deployed_hashes !! n = Some h.
Proof.
  destruct (deployed_hashes !! n) as [h'|]; split; try discriminate.
  - intros E. apply String.eqb_eq in E. now subst.
  - intros [= ->]. apply String.eqb_refl.
Qed.

Lemma stored_hash_test_false (deployed_hashes : gmap string string) n h :
  deployed_hashes !! n <> Some h ->
  match deployed_hashes !! n with
  | Some h' => String.eqb h' h
  | None => false
  end = false.
Proof.
  intros N. apply not_true_is_false. intros E. now apply stored_hash_test in E.
Qed.

Lemma executed_app t1 t2 : executed (t1 ++ t2) = executed t1 ++ executed t2.
Proof.
  induction t1 as [|e t1 IH]; [reflexivity|].
  destruct e as [| | |q ok| | |]; simpl; try exact IH.
  destruct q; simpl; try exact IH. now rewrite IH.
Qed.

Lemma upserts_app t1 t2 : upserts (t1 ++ t2) = upserts t1 ++ upserts t2.
Proof.
  induction t1 as [|e t1 IH]; [reflexivity|].
  destruct e as [| | |q ok| | |]; simpl; try exact IH.
  destruct q; simpl; try exact IH. now rewrite IH.
Qed.

Ltac app_norm :=
  rewrite ?executed_app, ?upserts_app; simpl;
  rewrite ?app_nil_r, <- ?app_assoc; simpl; try reflexivity.

Lemma attempted_all statements : forall d d',
  apply_all statements d = Some d' -> attempted statements d = statements.
Proof.
  induction statements as [|stmt l IH]; intros d d' E; [reflexivity|].
  simpl in *. destruct (run_statement stmt d) as [d1 [|]]; [|discriminate].
  now rewrite (IH _ _ E).
Qed.

Lemma attempted_first stmt statements d :
  exists l, attempted (stmt :: statements) d = stmt :: l.
Proof. simpl. destruct (run_statement stmt d) as [d1 ok]. eauto. Qed.

(** The statement loop never raises; it sends the statements of
    [attempted], touches neither the metadata nor the other two counters,
    and counts one error exactly when a statement fails. *)
Lemma execute_statements_spec filename statements : forall i st,
  exists st',
    execute_statements filename i statements st = (Ret tt, st') /\
    deployed_count st' = deployed_count st /\
    skipped_count st' = skipped_count st /\
    executed (trace st') = executed (trace st) ++ attempted statements (working st) /\
    upserts (trace st') = upserts (trace st) /\
    match apply_all statements (working st) with
    | Some d =>
        error_count st' = error_count st /\ working st' = d /\
        committed st' = match statements with [] => committed st | _ => d end
    | None =>
        error_count st' = S (error_count st) /\ working st' = committed st'
    end.
Proof.
  induction statements as [|stmt l IH]; intros i st.
  - exists st. simpl. rewrite app_nil_r. repeat split.
  - cbn [execute_statements attempted apply_all].
    unfold bind at 1. unfold try_except, bind, cursor_execute, bind. simpl.
    destruct (run_statement stmt (working st)) as [d1 [|]] eqn:E1; simpl.
    + match goal with |- context [execute_statements _ _ _ ?s] =>
        destruct (IH (S i) s) as (st' & E & Hd & Hs & Hx & Hu & Hdb) end.
      exists st'. split; [exact E|]. simpl in *.
      repeat split; try assumption.
      * rewrite Hx. app_norm.
      * rewrite Hu. app_norm.
      * destruct (apply_all l d1) as [d|]; [|exact Hdb].
        destruct Hdb as (He & Hw & Hc). repeat split; try assumption.
        destruct l; [|exact Hc]. simpl in E. injection E as <-. simpl in *.
        congruence.
    + eexists. split; [reflexivity|]. simpl.
      repeat split.
      * app_norm.
      * app_norm.
Qed.

(** An upsert that succeeds is committed at once; one that fails ends
    the process with status 1 and commits nothing. *)
Lemma update_deployment_metadata_spec script_name new_hash st :
  update_deployment_metadata script_name new_hash st =
  match run_merge script_name new_hash (working st) with
  | (d', true) =>
      (Ret tt,
       {| committed := d'; working := d';
          deployed_count := deployed_count st; skipped_count := skipped_count st;
          error_count := error_count st;
          trace := trace st ++
            [Execute (MergeSql script_name new_hash) true; Commit;
             Log INFO (MetadataUpdated script_name)] |})
  | (d', false) =>
      (Raise (SystemExit 1),
       {| committed := committed st; working := d';
          deployed_count := deployed_count st; skipped_count := skipped_count st;
          error_count := error_count st;
          trace := trace st ++
            [Execute (MergeSql script_name new_hash) false;
             Log ERROR (ErrorUpdatingMetadata script_name)] |})
  end.
Proof.
  unfold update_deployment_metadata, try_except, bind, cursor_execute, bind. simpl.
  destruct (run_merge script_name new_hash (working st)) as [d' [|]]; simpl;
    now rewrite <- !app_assoc.
Qed.

(** The three ways through [process_file] for a script that can be read. *)
Lemma process_file_skip deployed_hashes f data st :
  endswith (name f) ".sql" = true ->
  contents f = Some data ->
  deployed_hashes !! splitext_root (name f) = Some (sha256_hexdigest data) ->
  process_file deployed_hashes f st =
  (Ret tt,
   {| committed := committed st; working := working st;
      deployed_count := deployed_count st; skipped_count := S (skipped_count st);
      error_count := error_count st;
      trace := trace st ++ [Log INFO (Skipping (name f))] |}).
Proof.
  intros Hsql Hdata Hsame. unfold process_file. rewrite Hsql.
  unfold try_except, bind, calculate_file_hash. rewrite Hdata. simpl.
  apply stored_hash_test in Hsame. now rewrite Hsame.
Qed.

Lemma process_file_deploy deployed_hashes f data content st :
  endswith (name f) ".sql" = true ->
  contents f = Some data ->
  decode_utf8_sig data = Some content ->
  deployed_hashes !! splitext_root (name f) <> Some (sha256_hexdigest data) ->
  process_file deployed_hashes f st =
  (let st1 := after st [Log INFO (Deploying (name f))] in
   match execute_statements (name f) 1 (split_statements content) st1 with
   | (_, st2) =>
       if Nat.eqb (error_count st2) 0 then
         match
           update_deployment_metadata (splitext_root (name f)) (sha256_hexdigest data) st2
         with
         | (Ret _, st3) =>
             (Ret tt,
              {| committed := committed st3; working := working st3;
                 deployed_count := S (deployed_count st3);
                 skipped_count := skipped_count st3;
                 error_count := error_count st3;
                 trace := trace st3 ++ [Log INFO (SuccessfullyDeployed (name f))] |})
         | (Raise e, st3) => (Raise e, st3)
         end
       else (Ret tt, st2)
   end).
Proof.
  intros Hsql Hdata Hdec Hne. unfold process_file. rewrite Hsql.
  unfold try_except at 1. unfold bind at 1. unfold calculate_file_hash.
  rewrite Hdata. simpl.
  rewrite (stored_hash_test_false _ _ _ Hne).
  unfold bind at 1. unfold log, emit, modify. fold (after st [Log INFO (Deploying (name f))]).
  unfold bind at 1. unfold read_text. rewrite Hdata, Hdec. simpl.
  unfold bind at 1.
  destruct (execute_statements_spec (name f) (split_statements content) 1
              (after st [Log INFO (Deploying (name f))])) as (st2 & E & _).
  rewrite E. unfold bind at 1. unfold get at 1.
  destruct (Nat.eqb (error_count st2) 0); [|reflexivity].
  unfold bind at 1. rewrite update_deployment_metadata_spec.
  destruct (run_merge _ _ (working st2)) as [d' [|]]; reflexivity.
Qed.

(** Entries that are not scripts are passed over. *)
Lemma process_file_other deployed_hashes f st :
  endswith (name f) ".sql" = false -> process_file deployed_hashes f st = (Ret tt, st).
Proof. intros E. unfold process_file. now rewrite E. Qed.

(** A script that cannot be read, or not decoded, counts as one error. *)
Lemma process_file_unreadable deployed_hashes f st :
  endswith (name f) ".sql" = true ->
  contents f = None ->
  process_file deployed_hashes f st =
  (Ret tt,
   {| committed := committed st; working := committed st;
      deployed_count := deployed_count st; skipped_count := skipped_count st;
      error_count := S (error_count st);
      trace := trace st ++ [Log ERROR (UnexpectedError (name f)); Rollback] |}).
Proof.
  intros Hsql Hdata. unfold process_file. rewrite Hsql.
  unfold try_except, bind, calculate_file_hash. rewrite Hdata. exec.
  now rewrite <- !app_assoc.
Qed.

Lemma process_file_undecodable deployed_hashes f data st :
  endswith (name f) ".sql" = true ->
  contents f = Some data ->
  decode_utf8_sig data = None ->
  deployed_hashes !! splitext_root (name f) <> Some (sha256_hexdigest data) ->
  process_file deployed_hashes f st =
  (Ret tt,
   {| committed := committed st; working := committed st;
      deployed_count := deployed_count st; skipped_count := skipped_count st;
      error_count := S (error_count st);
      trace := trace st ++
        [Log INFO (Deploying (name f)); Log ERROR (UnexpectedError (name f));
         Rollback] |}).
Proof.
  intros Hsql Hdata Hdec Hne. unfold process_file. rewrite Hsql.
  unfold try_except, bind, calculate_file_hash, read_text. rewrite Hdata. simpl.
  rewrite (stored_hash_test_false _ _ _ Hne). simpl. rewrite Hdec. exec.
  now rewrite <- !app_assoc.
Qed.

(** A script whose fingerprint differs sends the statements of
    [attempted] and is not counted as skipped. *)
Lemma process_file_changed deployed_hashes f data content st :
  endswith (name f) ".sql" = true ->
  contents f = Some data ->
  decode_utf8_sig data = Some content ->
  deployed_hashes !! splitext_root (name f) <> Some (sha256_hexdigest data) ->
  executed (trace (process_file deployed_hashes f st).2)
  = executed (trace st) ++ attempted (split_statements content) (working st) /\
  skipped_count (process_file deployed_hashes f st).2 = skipped_count st.
Proof.
  intros Hsql Hdata Hdec Hne.
  rewrite (process_file_deploy _ _ _ _ _ Hsql Hdata Hdec Hne). cbv zeta.
  destruct (execute_statements_spec (name f) (split_statements content) 1
              (after st [Log INFO (Deploying (name f))]))
    as (st2 & E & _ & Hs & Hx & _).
  rewrite E. simpl in Hx, Hs. rewrite executed_app in Hx.
  simpl in Hx. rewrite app_nil_r in Hx.
  destruct (Nat.eqb (error_count st2) 0); [|now split].
  rewrite update_deployment_metadata_spec.
  destruct (run_merge _ _ (working st2)) as [d' [|]]; simpl;
    rewrite ?executed_app; simpl; rewrite ?app_nil_r; now split.
Qed.

(** C3: a readable script is skipped, with no call other than the log
    line, when the fingerprint loaded for its name equals that of its
    contents; otherwise its statements are sent to the database, in order,
    up to the first that fails (all of them when none fails).  So a
    statement is executed exactly when the fingerprint differs or is absent
    and the script has a statement. *)
Theorem change_detection deployed_hashes f data content st :
  endswith (name f) ".sql" = true ->
  contents f = Some data ->
  decode_utf8_sig data = Some content ->
  let script_name := splitext_root (name f) in
  let local_hash := sha256_hexdigest data in
  let statements := split_statements content in
  let st' := (process_file deployed_hashes f st).2 in
  (deployed_hashes !! script_name = Some local_hash ->
     process_file deployed_hashes f st =
     (Ret tt,
      {| committed := committed st; working := working st;
         deployed_count := deployed_count st; skipped_count := S (skipped_count st);
         error_count := error_count st;
         trace := trace st ++ [Log INFO (Skipping (name f))] |})) /\
  (deployed_hashes !! script_name <> Some local_hash ->
     executed (trace st') = executed (trace st) ++ attempted statements (working st) /\
     skipped_count st' = skipped_count st /\
     (forall d, apply_all statements (working st) = Some d ->
                executed (trace st') = executed (trace st) ++ statements)) /\
  (executed (trace st') <> executed (trace st) <->
     deployed_hashes !! script_name <> Some local_hash /\ statements <> []).
Proof.
  intros Hsql Hdata Hdec script_name local_hash statements st'.
  assert (Hskip : deployed_hashes !! script_name = Some local_hash ->
                  executed (trace st') = executed (trace st)).
  { intros Hsame. subst st'. rewrite (process_file_skip _ _ _ _ Hsql Hdata Hsame).
    simpl. app_norm. }
  assert (Hrun : deployed_hashes !! script_name <> Some local_hash ->
            executed (trace st') = executed (trace st) ++ attempted statements (working st) /\
            skipped_count st' = skipped_count st).
  { intros Hne. now apply (process_file_changed _ _ data). }
  split; [|split].
  - intros Hsame. now apply (process_file_skip _ _ data).
  - intros Hne. destruct (Hrun Hne) as (Hx & Hs). repeat split; try assumption.
    intros d Hd. rewrite Hx. now rewrite (attempted_all _ _ _ Hd).
  - split.
    + intros Hchg.
      destruct (decide (deployed_hashes !! script_name = Some local_hash)) as [Hsame|Hne].
      { now apply Hskip in Hsame. }
      split; [exact Hne|]. intros Hnil. apply Hchg.
      destruct (Hrun Hne) as (Hx & _). rewrite Hx, Hnil. simpl. apply app_nil_r.
    + intros (Hne & Hstm) Heq. destruct (Hrun Hne) as (Hx & _).
      rewrite Hx in Heq. destruct statements as [|stmt l]; [congruence|].
      destruct (attempted_first stmt l (working st)) as (l' & El).
      rewrite El in Heq.
      apply (f_equal (@length _)) in Heq. rewrite length_app in Heq. simpl in Heq. lia.
Qed.

(** C10: a changed or new script whose contents split into no statement
    (all its lines are blank or separators) sends no statement; while no
    error has been counted in the run, its fingerprint is upserted and it
    is counted as deployed. *)
Theorem empty_script_is_deployed deployed_hashes f data content st d' :
  endswith (name f) ".sql" = true ->
  contents f = Some data ->
  decode_utf8_sig data = Some content ->
  deployed_hashes !! splitext_root (name f) <> Some (sha256_hexdigest data) ->
  split_statements content = [] ->
  error_count st = 0 ->
  run_merge (splitext_root (name f)) (sha256_hexdigest data) (working st) = (d', true) ->
  process_file deployed_hashes f st =
  (Ret tt,
   {| committed := d'; working := d';
      deployed_count := S (deployed_count st); skipped_count := skipped_count st;
      error_count := 0;
      trace := trace st ++
        [Log INFO (Deploying (name f));
         Execute (MergeSql (splitext_root (name f)) (sha256_hexdigest data)) true;
         Commit;
         Log INFO (MetadataUpdated (splitext_root (name f)));
         Log INFO (SuccessfullyDeployed (name f))] |}) /\
  forallb (fun l => blank l || is_separator_line l) (lines content) = true.
Proof.
  intros Hsql Hdata Hdec Hne Hsplit Herr Hmerge.
  split; [|now apply no_statement_iff].
  rewrite (process_file_deploy _ _ _ _ _ Hsql Hdata Hdec Hne).
  rewrite Hsplit. simpl. rewrite Herr. simpl.
  rewrite update_deployment_metadata_spec. simpl. rewrite Hmerge. simpl.
  rewrite ?Herr, <- !app_assoc. reflexivity.
Qed.

(** *** What a program adds to the trace *)

Lemma emits_ret {A} p (a : A) : emits p (ret a).
Proof. intros st. exists []. simpl. now rewrite app_nil_r. Qed.

Lemma emits_raise {A} p e : emits p (@raise _ A e).
Proof. intros st. exists []. simpl. now rewrite app_nil_r. Qed.

Lemma emits_get {A} p (f : state -> A) : emits p (get f).
Proof. intros st. exists []. simpl. now rewrite app_nil_r. Qed.

Lemma emits_modify p f :
  (forall st, trace (f st) = trace st) -> emits p (modify f).
Proof. intros E st. exists []. simpl. now rewrite E, app_nil_r. Qed.

Lemma emits_emit p e : p e = true -> emits p (emit e).
Proof. intros E st. exists [e]. simpl. now rewrite E. Qed.

Lemma emits_bind {A B} p (m : M A) (k : A -> M B) :
  emits p m -> (forall a, emits p (k a)) -> emits p (bind m k).
Proof.
  intros Hm Hk st. unfold bind. destruct (Hm st) as (n1 & E1 & P1).
  destruct (m st) as [[a|e] st1]; simpl in E1.
  - destruct (Hk a st1) as (n2 & E2 & P2). exists (n1 ++ n2).
    rewrite E2, E1, <- app_assoc, forallb_app, P1, P2. now split.
  - exists n1. now split.
Qed.

Lemma emits_try_except {A} p (body : M A) handler :
  emits p body ->
  (forall e h, handler e = Some h -> emits p h) ->
  emits p (try_except body handler).
Proof.
  intros Hm Hh st. unfold try_except. destruct (Hm st) as (n1 & E1 & P1).
  destruct (body st) as [[a|e] st1]; simpl in E1.
  - exists n1. now split.
  - destruct (handler e) as [h|] eqn:Eh; [|exists n1; now split].
    destruct (Hh e h Eh st1) as (n2 & E2 & P2). exists (n1 ++ n2).
    rewrite E2, E1, <- app_assoc, forallb_app, P1, P2. now split.
Qed.

Lemma emits_if {A} p (b : bool) (m1 m2 : M A) :
  emits p m1 -> emits p m2 -> emits p (if b then m1 else m2).
Proof. now destruct b. Qed.

Ltac emits_step :=
  first
    [ apply emits_ret | apply emits_raise | apply emits_get
    | apply emits_modify; reflexivity
    | apply emits_emit; reflexivity
    | apply emits_bind; [|intros ?]
    | apply emits_if ].

Ltac emits_auto :=
  unfold cnxn_commit, cnxn_rollback, cnxn_close, log, sys_exit,
    incr_deployed, incr_skipped, incr_error, set_working, set_committed;
  repeat emits_step.

Lemma emits_cursor_execute p q run :
  (forall ok, p (Execute q ok) = true) -> emits p (cursor_execute q run).
Proof.
  intros Hp. unfold cursor_execute. apply emits_bind; [emits_auto|]. intros d.
  destruct (run d) as [d' ok].
  apply emits_bind; [emits_auto|]. intros _.
  apply emits_bind; [apply emits_emit, Hp|]. intros _. emits_auto.
Qed.

Lemma execute_statements_emits p filename statements :
  (forall stmt ok, p (Execute (Statement stmt) ok) = true) ->
  p Commit = true -> p Rollback = true ->
  (forall i, p (Log INFO (ExecutedStatement i filename)) = true) ->
  (forall i, p (Log ERROR (ErrorInStatement filename i)) = true) ->
  forall i, emits p (execute_statements filename i statements).
Proof.
  intros Hx Hc Hr Hi He.
  induction statements as [|stmt l IH]; intros i; cbn [execute_statements].
  - emits_auto.
  - apply emits_bind.
    + apply emits_try_except.
      * apply emits_bind; [now apply emits_cursor_execute|]. intros _.
        apply emits_bind.
        { unfold cnxn_commit. apply emits_bind; [emits_auto|]. intros d.
          apply emits_bind; [emits_auto|]. intros _. now apply emits_emit. }
        intros _. apply emits_bind; [now apply emits_emit|]. intros _. emits_auto.
      * intros e h. destruct (is_Exception e); [|discriminate].
        intros [= <-]. apply emits_bind; [now apply emits_emit|]. intros _.
        apply emits_bind; [emits_auto|]. intros _.
        apply emits_bind; [|intros _; emits_auto].
        unfold cnxn_rollback. apply emits_bind; [emits_auto|]. intros d.
        apply emits_bind; [emits_auto|]. intros _. now apply emits_emit.
    + intros [|]; [apply IH|emits_auto].
Qed.

Lemma execute_statements_before_summary filename statements i :
  emits before_summary (execute_statements filename i statements).
Proof. now apply execute_statements_emits. Qed.

Lemma update_deployment_metadata_before_summary script_name new_hash :
  emits before_summary (update_deployment_metadata script_name new_hash).
Proof.
  apply emits_try_except.
  - apply emits_bind; [now apply emits_cursor_execute|]. intros _. emits_auto.
  - intros e h. destruct e; try discriminate. intros [= <-]. emits_auto.
Qed.

Lemma process_file_before_summary deployed_hashes f :
  emits before_summary (process_file deployed_hashes f).
Proof.
  unfold process_file. apply emits_if; [|emits_auto].
  apply emits_try_except.
  - apply emits_bind.
    { unfold calculate_file_hash. destruct (contents f); emits_auto. }
    intros local_hash. apply emits_if; [emits_auto|].
    apply emits_bind; [emits_auto|]. intros _.
    apply emits_bind.
    { unfold read_text. destruct (contents f) as [data|]; [|emits_auto].
      destruct (decode_utf8_sig data); emits_auto. }
    intros content.
    apply emits_bind; [apply execute_statements_before_summary|]. intros _.
    apply emits_bind; [emits_auto|]. intros n.
    apply emits_if; [|emits_auto].
    apply emits_bind; [apply update_deployment_metadata_before_summary|].
    intros _. emits_auto.
  - intros e h. destruct e; simpl; try discriminate; intros [= <-]; emits_auto.
Qed.

Lemma for_each_emits {A} p (body : A -> M unit) l :
  (forall x, emits p (body x)) -> emits p (for_each body l).
Proof.
  intros Hb. induction l as [|x l IH]; simpl; [apply emits_ret|].
  apply emits_bind; [apply Hb|]. intros _. exact IH.
Qed.

(** *** The stages of a run *)

Lemma bind_emit {B} e (k : unit -> M B) st :
  bind (emit e) k st = k tt (after st [e]).
Proof. reflexivity. Qed.

Lemma connect_loop_spec h range :
  exists r new,
    (forall st, connect_loop h range st = (r, after st new)) /\
    forallb before_summary new = true /\
    List.filter is_deployment new = [] /\
    (r = Ret tt /\ In (Connect true) new \/
     r = Raise (SystemExit 1) /\ forall i, In i range -> connect_ok h i = false).
Proof.
  induction range as [|i range (r & new & E & P & F & D)]; simpl.
  - exists (Raise (SystemExit 1)), [Log ERROR FailedToConnect].
    split; [reflexivity|]. split; [reflexivity|]. split; [reflexivity|].
    right. now split.
  - destruct (connect_ok h i) eqn:Ei.
    + exists (Ret tt), [Connect true; Log INFO SuccessfullyConnected].
      split; [intros st; exec; unfold after; simpl; now rewrite <- app_assoc|].
      split; [reflexivity|]. split; [reflexivity|]. left. simpl. tauto.
    + exists r, ([Connect false; Log WARNING (ConnectionError (i + 1) max_retries);
                  Sleep retry_delay] ++ new).
      split.
      { intros st. unfold log. rewrite !bind_emit, E. unfold after. simpl.
        now rewrite <- !app_assoc. }
      split; [exact P|]. split; [exact F|].
      destruct D as [(-> & Hin)|(-> & Hall)].
      * left. split; [reflexivity|]. simpl. tauto.
      * right. split; [reflexivity|]. intros j [<-|Hj]; auto.
Qed.

(** The outcome of [get_db_connection] depends on the host alone. *)
Lemma connect_loop_failures h k : forall a rest st,
  (forall i, a <= i < a + k -> connect_ok h i = false) ->
  connect_loop h (seq a k ++ rest) st
  = connect_loop h rest (after st (failed_attempts (seq a k))).
Proof.
  induction k as [|k IH]; intros a rest st Hf.
  - simpl. unfold after. rewrite app_nil_r. now destruct st.
  - cbn [seq app connect_loop]. rewrite (Hf a) by lia.
    unfold log. rewrite !bind_emit, IH by (intros i Hi; apply Hf; lia).
    f_equal. unfold after, failed_attempts. simpl. now rewrite <- !app_assoc.
Qed.

(** Among the first [n] attempts either all fail or there is a first one
    that succeeds. *)
Lemma first_success h n :
  (forall i, i < n -> connect_ok h i = false) \/
  exists k, k < n /\ connect_ok h k = true /\
            forall i, i < k -> connect_ok h i = false.
Proof.
  induction n as [|n [IH|(k & Hk & Hok & Hf)]].
  - left. intros i Hi. lia.
  - destruct (connect_ok h n) eqn:En.
    + right. exists n. repeat split; [lia|exact En|exact IH].
    + left. intros i Hi. destruct (decide (i = n)) as [->|Hne]; [exact En|].
      apply IH. lia.
  - right. exists k. repeat split; [lia|exact Hok|exact Hf].
Qed.

Lemma get_db_connection_at h k st :
  forallb env_truthy
    [DB_SERVER (env h); DB_DATABASE (env h); DB_USERNAME (env h); DB_PASSWORD (env h)]
  = true ->
  k < 10 -> connect_ok h k = true ->
  (forall i, i < k -> connect_ok h i = false) ->
  get_db_connection h st =
  (Ret tt,
   after st (Log INFO AttemptingToConnect :: failed_attempts (seq 0 k) ++
             [Connect true; Log INFO SuccessfullyConnected])).
Proof.
  intros Henv Hk Hok Hf. unfold get_db_connection. rewrite Henv. cbn [negb].
  unfold log at 1. rewrite bind_emit.
  assert (Hs : seq 0 max_retries = seq 0 k ++ k :: seq (S k) (9 - k)).
  { unfold max_retries. replace 10 with (k + S (9 - k)) by lia.
    now rewrite seq_app. }
  rewrite Hs, connect_loop_failures by (intros i Hi; apply Hf; lia).
  cbn [connect_loop]. rewrite Hok. unfold log. rewrite !bind_emit.
  unfold ret, after. simpl. now rewrite <- !app_assoc.
Qed.

Lemma get_db_connection_spec h :
  exists r new,
    (forall st, get_db_connection h st = (r, after st new)) /\
    forallb before_summary new = true /\
    List.filter is_deployment new = [] /\
    (r = Ret tt /\ In (Connect true) new \/
     r = Raise (SystemExit 1) /\ ~ connects h).
Proof.
  unfold get_db_connection.
  destruct (forallb env_truthy _) eqn:Eenv; cbn [negb].
  - destruct (connect_loop_spec h (seq 0 max_retries)) as (r & new & E & P & F & D).
    exists r, (Log INFO AttemptingToConnect :: new).
    split.
    { intros st. unfold log. rewrite bind_emit, E. unfold after. simpl.
      now rewrite <- app_assoc. }
    split; [exact P|]. split; [exact F|].
    destruct D as [(-> & Hin)|(-> & Hall)].
    + left. split; [reflexivity|]. now right.
    + right. split; [reflexivity|]. intros (_ & i & Hi & Hok).
      rewrite Hall in Hok; [discriminate|]. apply in_seq. unfold max_retries in *. lia.
  - exists (Raise (SystemExit 1)),
      [Log INFO AttemptingToConnect; Log ERROR EnvironmentVariablesMustBeSet].
    split; [intros st; exec; unfold after; simpl; now rewrite <- app_assoc|].
    split; [reflexivity|]. split; [reflexivity|].
    right. split; [reflexivity|].
    intros (E & _). rewrite E in Eenv. discriminate Eenv.
Qed.

Lemma ensure_metadata_table_exists_spec st :
  ensure_metadata_table_exists st =
  match run_create_table (working st) with
  | (d', true) =>
      (Ret tt,
       {| committed := d'; working := d';
          deployed_count := deployed_count st; skipped_count := skipped_count st;
          error_count := error_count st;
          trace := trace st ++
            [Execute CreateTableSql true; Commit; Log INFO EnsuredTableExists] |})
  | (d', false) =>
      (Raise (SystemExit 1),
       {| committed := committed st; working := d';
          deployed_count := deployed_count st; skipped_count := skipped_count st;
          error_count := error_count st;
          trace := trace st ++
            [Execute CreateTableSql false; Log ERROR ErrorEnsuringTable] |})
  end.
Proof.
  unfold ensure_metadata_table_exists. exec.
  destruct (run_create_table (working st)) as [d' [|]]; simpl;
    now rewrite <- !app_assoc.
Qed.

Lemma get_deployed_hashes_spec st :
  exists deployed_hashes new,
    get_deployed_hashes st = (Ret deployed_hashes, after st new) /\
    (forall n, deployed_hashes !! n = stored (working st) n) /\
    forallb before_summary new = true /\
    List.filter is_deployment new = [].
Proof.
  unfold get_deployed_hashes, stored. exec.
  destruct (run_select_hashes (working st)) as [rows|]; simpl.
  - eexists _, _. split; [reflexivity|]. repeat split.
  - exists ∅, [Execute SelectHashesSql false; Log WARNING ErrorFetchingHashes].
    unfold after. rewrite <- app_assoc. repeat split.
Qed.

(** Only a failed upsert lets an exception out of the loop body, and it
    is [SystemExit(1)]. *)
Lemma process_file_raises deployed_hashes f st e st' :
  process_file deployed_hashes f st = (Raise e, st') -> e = SystemExit 1.
Proof.
  destruct (endswith (name f) ".sql") eqn:Hsql;
    [|rewrite (process_file_other _ _ _ Hsql); discriminate].
  destruct (contents f) as [data|] eqn:Hdata;
    [|rewrite (process_file_unreadable _ _ _ Hsql Hdata); discriminate].
  destruct (decide (deployed_hashes !! splitext_root (name f)
                    = Some (sha256_hexdigest data))) as [Hsame|Hne];
    [rewrite (process_file_skip _ _ _ _ Hsql Hdata Hsame); discriminate|].
  destruct (decode_utf8_sig data) as [content|] eqn:Hdec;
    [|rewrite (process_file_undecodable _ _ _ _ Hsql Hdata Hdec Hne); discriminate].
  rewrite (process_file_deploy _ _ _ _ _ Hsql Hdata Hdec Hne). cbv zeta.
  destruct (execute_statements _ _ _ _) as [r2 st2].
  destruct (Nat.eqb (error_count st2) 0); [|discriminate].
  rewrite update_deployment_metadata_spec.
  destruct (run_merge _ _ (working st2)) as [d' [|]]; [discriminate|].
  now intros [= <- _].
Qed.

Lemma for_each_raises deployed_hashes listing : forall st e st',
  for_each (process_file deployed_hashes) listing st = (Raise e, st') ->
  e = SystemExit 1.
Proof.
  induction listing as [|f l IH]; intros st e st'; simpl; [discriminate|].
  unfold bind. destruct (process_file deployed_hashes f st) as [[[]|e1] st1] eqn:E1.
  - apply IH.
  - intros [= <- _]. now apply process_file_raises in E1.
Qed.

(** [deploy_stored_procedures] stage by stage. *)
Lemma deploy_unfold h st :
  deploy_stored_procedures h st =
  match get_db_connection h st with
  | (Raise e, st1) => (Raise e, st1)
  | (Ret _, st1) =>
      match ensure_metadata_table_exists st1 with
      | (Raise e, st2) => (Raise e, st2)
      | (Ret _, st2) =>
          match get_deployed_hashes st2 with
          | (Raise e, st3) => (Raise e, st3)
          | (Ret deployed_hashes, st3) =>
              match scripts_dir h with
              | Missing =>
                  (Raise (SystemExit 1), after st3 [Log ERROR DirectoryNotFound])
              | Unlistable => (Raise OSError, st3)
              | Listing listing =>
                  match for_each (process_file deployed_hashes) listing st3 with
                  | (Raise e, st4) => (Raise e, st4)
                  | (Ret _, st4) =>
                      (Raise (SystemExit (if Nat.ltb 0 (error_count st4) then 1 else 0)),
                       after st4 (summary st4))
                  end
              end
          end
      end
  end.
Proof.
  unfold deploy_stored_procedures. unfold bind at 1.
  destruct (get_db_connection h st) as [[[]|e] st1]; [|reflexivity].
  unfold bind at 1.
  destruct (ensure_metadata_table_exists st1) as [[[]|e] st2]; [|reflexivity].
  unfold bind at 1.
  destruct (get_deployed_hashes st2) as [[deployed_hashes|e] st3]; [|reflexivity].
  destruct (scripts_dir h) as [| |listing]; [reflexivity|reflexivity|].
  unfold bind at 1.
  destruct (for_each (process_file deployed_hashes) listing st3) as [[[]|e] st4];
    [|reflexivity].
  exec. unfold after, summary. rewrite <- !app_assoc. simpl.
  destruct (error_count st4) as [|n]; simpl; now rewrite <- ?app_assoc.
Qed.

Lemma for_each_no_scripts deployed_hashes listing st :
  scripts listing = [] ->
  for_each (process_file deployed_hashes) listing st = (Ret tt, st).
Proof.
  revert st. induction listing as [|f l IH]; intros st E; [reflexivity|].
  unfold scripts in E. simpl in E.
  destruct (endswith (name f) ".sql") eqn:Hsql; [discriminate|].
  simpl. unfold bind. rewrite (process_file_other _ _ _ Hsql). now apply IH.
Qed.

(** What the SELECT on the metadata table adds to the trace. *)
Lemma get_deployed_hashes_trace st :
  exists deployed_hashes,
    get_deployed_hashes st =
    (Ret deployed_hashes,
     after st
       match run_select_hashes (working st) with
       | Some _ => [Execute SelectHashesSql true]
       | None => [Execute SelectHashesSql false; Log WARNING ErrorFetchingHashes]
       end).
Proof.
  unfold get_deployed_hashes, try_except, bind, cursor_select, bind. simpl.
  destruct (run_select_hashes (working st)) as [rows|]; simpl.
  - eexists. reflexivity.
  - eexists. unfold after. simpl. now rewrite <- !app_assoc.
Qed.

(** C6 (amended): in a run that obtains the connection and passes the
    schema check, a missing scripts directory is fatal and a directory
    without script is not.  With the directory missing the run exits with
    status 1 once it has connected, executed and committed the CREATE
    TABLE of the schema check and sent the SELECT on the metadata table;
    the error on the directory is the only thing that follows.  With a
    directory that exists and holds no [.sql] entry the same startup is
    followed by the closing of the connection and a summary of zeros, and
    the run exits with status 0.  Neither run sends a statement of a
    script or an upsert. *)
Theorem directory_without_scripts h d d' :
  connects h ->
  run_create_table d = (d', true) ->
  exists k,
    k < 10 /\ connect_ok h k = true /\
    (scripts_dir h = Missing ->
     run h d =
     (Raise (SystemExit 1),
      {| committed := d'; working := d';
         deployed_count := 0; skipped_count := 0; error_count := 0;
         trace := startup k d' ++ [Log ERROR DirectoryNotFound] |})) /\
    (forall listing,
       scripts_dir h = Listing listing -> scripts listing = [] ->
       run h d =
       (Raise (SystemExit 0),
        {| committed := d'; working := d';
           deployed_count := 0; skipped_count := 0; error_count := 0;
           trace := startup k d' ++
             [Close; Log INFO SummaryHeader; Log INFO (SummaryDeployed 0);
              Log INFO (SummarySkipped 0); Log INFO (SummaryErrors 0);
              Log INFO DeploymentCompleted] |})).
Proof.
  intros (Henv & i & Hi & Hok) Hc.
  destruct (first_success h 10) as [Hall|(k & Hk & Hokk & Hf)].
  { rewrite Hall in Hok by exact Hi. discriminate Hok. }
  exists k. split; [exact Hk|]. split; [exact Hokk|].
  unfold run. rewrite deploy_unfold.
  rewrite (get_db_connection_at h k _ Henv Hk Hokk Hf).
  rewrite ensure_metadata_table_exists_spec. cbn [after working start].
  rewrite Hc.
  match goal with |- context [get_deployed_hashes ?s] =>
    destruct (get_deployed_hashes_trace s) as (dh & E3) end.
  rewrite E3. clear E3. unfold startup.
  cbn [after start committed working deployed_count skipped_count
       error_count trace].
  split.
  - intros ->.
    destruct (run_select_hashes d'); unfold after; simpl;
      rewrite <- ?app_assoc; reflexivity.
  - intros listing -> Hnone.
    rewrite (for_each_no_scripts _ _ _ Hnone).
    unfold after, summary.
    cbn [committed working deployed_count skipped_count error_count trace
         Nat.ltb Nat.leb].
    destruct (run_select_hashes d'); unfold after; simpl;
      rewrite <- ?app_assoc; reflexivity.
Qed.

Lemma forallb_not_in {A} (p : A -> bool) l x :
  forallb p l = true -> p x = false -> ~ In x l.
Proof.
  intros Hall Hx Hin. rewrite forallb_forall in Hall.
  apply Hall in Hin. congruence.
Qed.

(** C8 (amended): the connection is closed exactly in the runs that reach
    their summary: then [close] comes once, after the connection was
    opened and right before the summary lines that end the trace.  Every
    run that exits with status 0 is one of them; a run cut short by a fatal
    exit never closes the connection. *)
Theorem connection_closed_with_summary h d :
  (In Close (trace (run h d).2) <->
   In (Log INFO SummaryHeader) (trace (run h d).2)) /\
  (In (Log INFO SummaryHeader) (trace (run h d).2) <->
   exists before st,
     trace (run h d).2 = before ++ summary st /\
     In (Connect true) before /\ ~ In Close before) /\
  (exit_status (run h d).1 = 0 -> In Close (trace (run h d).2)).
Proof.
  unfold run. rewrite deploy_unfold.
  destruct (get_db_connection_spec h) as (r1 & n1 & E1 & P1 & _ & D1).
  rewrite E1.
  assert (Q : forall new,
            forallb before_summary new = true ->
            (In Close new <-> In (Log INFO SummaryHeader) new) /\
            (In (Log INFO SummaryHeader) new <->
             exists before st,
               new = before ++ summary st /\
               In (Connect true) before /\ ~ In Close before) /\
            (1 = 0 -> In Close new)).
  { intros new Hq.
    assert (~ In Close new) by now apply (forallb_not_in _ _ _ Hq).
    assert (~ In (Log INFO SummaryHeader) new) by now apply (forallb_not_in _ _ _ Hq).
    split; [tauto|]. split; [|discriminate]. split; [tauto|].
    intros (before & st & -> & _). exfalso. apply H0.
    apply in_or_app. right. simpl. tauto. }
  destruct D1 as [(-> & Hconn)|(-> & _)]; [|now apply Q].
  rewrite ensure_metadata_table_exists_spec. cbn [after working start trace app].
  destruct (run_create_table d) as [d' [|]]; cbn [fst snd trace].
  2:{ apply Q. rewrite forallb_app, P1. reflexivity. }
  match goal with |- context [get_deployed_hashes ?s] =>
    destruct (get_deployed_hashes_spec s) as (dh & n3 & E3 & _ & P3 & _) end.
  rewrite E3. cbn [after trace].
  destruct (scripts_dir h) as [| |listing]; cbn [fst snd trace after].
  1,2: apply Q; rewrite !forallb_app, P1, P3; reflexivity.
  match goal with |- context [for_each ?b listing ?s] =>
    destruct (for_each_emits before_summary b listing
                (process_file_before_summary dh) s) as (n4 & E4 & P4);
    destruct (for_each b listing s) as [r4 st4] eqn:Er4 end.
  cbn [fst snd trace after] in E4.
  destruct r4 as [[]|e]; cbn [fst snd trace after].
  2:{ apply for_each_raises in Er4. subst e.
      rewrite E4. apply Q. rewrite !forallb_app, P1, P3, P4. reflexivity. }
  rewrite E4.
  match goal with |- context [?b ++ summary st4] =>
    assert (Hb : forallb before_summary b = true)
      by (rewrite !forallb_app, P1, P3, P4; reflexivity);
    assert (Hc : In (Connect true) b)
      by (apply in_or_app; left; apply in_or_app; left; apply in_or_app; left; exact Hconn);
    generalize dependent b end.
  intros b _ Hb Hc.
  assert (Hs : In Close (b ++ summary st4)) by (apply in_or_app; right; simpl; tauto).
  assert (Hh : In (Log INFO SummaryHeader) (b ++ summary st4))
    by (apply in_or_app; right; simpl; tauto).
  repeat split; try tauto.
  intros _. exists b, st4. repeat split; [exact Hc|].
  now apply (forallb_not_in _ _ _ Hb).
Qed.

(** *** Two runs in succession *)

Lemma no_deployment_executed t :
  List.filter is_deployment t = [] -> executed t = [] /\ upserts t = [].
Proof.
  induction t as [|e t IH]; [now split|].
  simpl. destruct e as [| | |q ok| | |]; simpl; try exact IH.
  destruct q; simpl; try exact IH; discriminate.
Qed.

Lemma apply_all_stored listing statements : forall d d1 n,
  store_laws listing ->
  (forall stmt, In stmt statements -> script_statement listing stmt) ->
  apply_all statements d = Some d1 ->
  stored d1 n = stored d n.
Proof.
  induction statements as [|stmt l IH]; intros d d1 n L Hin E; simpl in E.
  - now injection E as <-.
  - destruct (run_statement stmt d) as [d' [|]] eqn:E1; [|discriminate].
    rewrite (IH d' d1 n L); [|intros s Hs; apply Hin; now right|exact E].
    apply (statement_stored listing L stmt d d' n); [apply Hin; now left|exact E1].
Qed.

(** One step of a run that ends without error. *)
Lemma process_file_step deployed_hashes f st st1 :
  process_file deployed_hashes f st = (Ret tt, st1) ->
  error_count st1 = 0 ->
  working st = committed st ->
  error_count st = 0 /\ working st1 = committed st1 /\
  (endswith (name f) ".sql" = false /\ st1 = st \/
   endswith (name f) ".sql" = true /\
   exists data, contents f = Some data /\
     (deployed_hashes !! splitext_root (name f) = Some (sha256_hexdigest data) /\
      working st1 = working st \/
      exists content d1,
        decode_utf8_sig data = Some content /\
        apply_all (split_statements content) (working st) = Some d1 /\
        run_merge (splitext_root (name f)) (sha256_hexdigest data) d1
        = (working st1, true))).
Proof.
  intros E Herr Hw.
  destruct (endswith (name f) ".sql") eqn:Hsql.
  2:{ rewrite (process_file_other _ _ _ Hsql) in E. injection E as <-. tauto. }
  destruct (contents f) as [data|] eqn:Hdata.
  2:{ rewrite (process_file_unreadable _ _ _ Hsql Hdata) in E. injection E as <-.
      discriminate Herr. }
  destruct (decide (deployed_hashes !! splitext_root (name f)
                    = Some (sha256_hexdigest data))) as [Hsame|Hne].
  { rewrite (process_file_skip _ _ _ _ Hsql Hdata Hsame) in E. injection E as <-.
    simpl in *. repeat split; try assumption. right. split; [reflexivity|].
    exists data. split; [reflexivity|]. left. now split. }
  destruct (decode_utf8_sig data) as [content|] eqn:Hdec.
  2:{ rewrite (process_file_undecodable _ _ _ _ Hsql Hdata Hdec Hne) in E.
      injection E as <-. discriminate Herr. }
  rewrite (process_file_deploy _ _ _ _ _ Hsql Hdata Hdec Hne) in E. cbv zeta in E.
  destruct (execute_statements_spec (name f) (split_statements content) 1
              (after st [Log INFO (Deploying (name f))]))
    as (st2 & E2 & _ & _ & _ & _ & Hdb).
  rewrite E2 in E. simpl in Hdb.
  destruct (apply_all (split_statements content) (working st)) as [d1|] eqn:Hall.
  2:{ destruct Hdb as (He & _). rewrite He in E. simpl in E. injection E as <-.
      rewrite He in Herr. discriminate Herr. }
  destruct Hdb as (He & Hw2 & _).
  destruct (Nat.eqb (error_count st2) 0) eqn:Hz.
  2:{ injection E as <-. rewrite Herr in Hz. discriminate Hz. }
  apply Nat.eqb_eq in Hz. rewrite He in Hz.
  rewrite update_deployment_metadata_spec, Hw2 in E.
  destruct (run_merge _ _ d1) as [d' [|]] eqn:Hm; [|discriminate E].
  injection E as <-. simpl.
  split; [exact Hz|]. split; [reflexivity|]. right. split; [reflexivity|].
  exists data. split; [reflexivity|]. right. now exists content, d1.
Qed.

Lemma scripts_app l1 l2 : scripts (l1 ++ l2) = scripts l1 ++ scripts l2.
Proof. apply List.filter_app. Qed.

Lemma script_names_app l1 l2 :
  script_names (l1 ++ l2) = script_names l1 ++ script_names l2.
Proof. unfold script_names. now rewrite scripts_app, map_app. Qed.

(** The error counter never goes down. *)
Lemma process_file_error_mono deployed_hashes f st st1 :
  process_file deployed_hashes f st = (Ret tt, st1) ->
  error_count st <= error_count st1.
Proof.
  intros E.
  destruct (endswith (name f) ".sql") eqn:Hsql.
  2:{ rewrite (process_file_other _ _ _ Hsql) in E. now injection E as <-. }
  destruct (contents f) as [data|] eqn:Hdata.
  2:{ rewrite (process_file_unreadable _ _ _ Hsql Hdata) in E.
      injection E as <-. simpl. lia. }
  destruct (decide (deployed_hashes !! splitext_root (name f)
                    = Some (sha256_hexdigest data))) as [Hsame|Hne].
  { rewrite (process_file_skip _ _ _ _ Hsql Hdata Hsame) in E.
    now injection E as <-. }
  destruct (decode_utf8_sig data) as [content|] eqn:Hdec.
  2:{ rewrite (process_file_undecodable _ _ _ _ Hsql Hdata Hdec Hne) in E.
      injection E as <-. simpl. lia. }
  rewrite (process_file_deploy _ _ _ _ _ Hsql Hdata Hdec Hne) in E.
  cbv zeta in E.
  destruct (execute_statements_spec (name f) (split_statements content) 1
              (after st [Log INFO (Deploying (name f))]))
    as (st3 & E3 & _ & _ & _ & _ & Hdb).
  rewrite E3 in E. simpl in Hdb.
  assert (Hle : error_count st <= error_count st3).
  { destruct (apply_all _ _); destruct Hdb as (-> & _); lia. }
  destruct (Nat.eqb (error_count st3) 0) eqn:Hz.
  - rewrite update_deployment_metadata_spec in E.
    destruct (run_merge _ _ (working st3)) as [d' [|]]; [|discriminate E].
    injection E as <-. exact Hle.
  - now injection E as <-.
Qed.

Lemma for_each_error_mono deployed_hashes listing : forall st st',
  for_each (process_file deployed_hashes) listing st = (Ret tt, st') ->
  error_count st <= error_count st'.
Proof.
  induction listing as [|f l IH]; intros st st' E; simpl in E.
  - now injection E as <-.
  - unfold bind in E.
    destruct (process_file deployed_hashes f st) as [[[]|e] st1] eqn:E1; [|discriminate].
    apply process_file_error_mono in E1. apply IH in E. lia.
Qed.

(** The invariant of a run without error. *)
Lemma first_run_loop deployed_hashes listing : forall rest done st st',
  listing = done ++ rest ->
  NoDup (script_names listing) ->
  store_laws listing ->
  for_each (process_file deployed_hashes) rest st = (Ret tt, st') ->
  error_count st' = 0 ->
  recorded deployed_hashes done st ->
  recorded deployed_hashes listing st'.
Proof.
  induction rest as [|f rest IH]; intros done st st' Hl Hnd L E Herr Inv.
  - simpl in E. injection E as <-. rewrite app_nil_r in Hl. now subst.
  - simpl in E. unfold bind in E.
    destruct (process_file deployed_hashes f st) as [[[]|e] st1] eqn:E1; [|discriminate].
    assert (Herr1 : error_count st1 = 0).
    { apply for_each_error_mono in E. lia. }
    destruct Inv as (Hw & Hdone & Hrest).
    destruct (process_file_step _ _ _ _ E1 Herr1 Hw) as (_ & Hw1 & Hcase).
    apply (IH (done ++ [f]) st1 st'); try assumption.
    { now rewrite <- app_assoc. }
    split; [exact Hw1|].
    destruct Hcase as [(Hsql & ->)|(Hsql & data & Hdata & Hcase)].
    { unfold script_names. rewrite scripts_app. unfold scripts at 2 4. simpl.
      rewrite Hsql. simpl. rewrite !app_nil_r. now split. }
    assert (Hf : scripts (done ++ [f]) = scripts done ++ [f]).
    { rewrite scripts_app. unfold scripts at 2. simpl. now rewrite Hsql. }
    assert (Hfresh : ~ In (splitext_root (name f)) (script_names done)).
    { rewrite Hl in Hnd. rewrite script_names_app in Hnd.
      apply NoDup_app in Hnd. destruct Hnd as (_ & Hdis & _).
      intros Hin. apply (Hdis (splitext_root (name f))).
      - now apply list_elem_of_In.
      - apply list_elem_of_In. unfold script_names, scripts. simpl.
        rewrite Hsql. simpl. now left. }
    assert (Hnames : script_names (done ++ [f])
                     = script_names done ++ [splitext_root (name f)]).
    { unfold script_names. now rewrite Hf, map_app. }
    assert (Hstored : stored (working st1) (splitext_root (name f))
                      = Some (sha256_hexdigest data) /\
                      forall n, n <> splitext_root (name f) ->
                                stored (working st1) n = stored (working st) n).
    { destruct Hcase as [(Hsame & Hsw)|(content & d1 & Hdec & Hall & Hm)].
      - rewrite Hsw. split; [|reflexivity]. rewrite (Hrest _ Hfresh). exact Hsame.
      - assert (Hs : forall n, stored d1 n = stored (working st) n).
        { intros n. apply (apply_all_stored listing (split_statements content));
            try assumption.
          intros stmt Hin. exists f, data, content. repeat split; try assumption.
          rewrite Hl. apply in_or_app. right. now left. }
        split.
        + apply (merge_stored listing L _ _ _ _ Hm).
        + intros n Hn. rewrite (merge_other listing L _ _ _ _ n Hm Hn). apply Hs. }
    destruct Hstored as (Hself & Hother).
    rewrite Hf, Hnames. split.
    + intros g Hg. apply in_app_or in Hg. destruct Hg as [Hg|[<-|[]]].
      * destruct (Hdone g Hg) as (dg & Hdg & Hsg). exists dg. split; [exact Hdg|].
        rewrite Hother; [exact Hsg|]. intros Heq. apply Hfresh. rewrite <- Heq.
        unfold script_names. now apply (in_map (fun f => splitext_root (name f))).
      * now exists data.
    + intros n Hn. rewrite Hother.
      * apply Hrest. intros Hin. apply Hn. apply in_or_app. now left.
      * intros ->. apply Hn. apply in_or_app. right. now left.
Qed.

(** With every script recorded under its current fingerprint the loop
    only skips. *)
Lemma for_each_all_skip deployed_hashes listing : forall st,
  (forall f, In f (scripts listing) ->
     exists data, contents f = Some data /\
       deployed_hashes !! splitext_root (name f) = Some (sha256_hexdigest data)) ->
  exists new,
    for_each (process_file deployed_hashes) listing st =
    (Ret tt,
     {| committed := committed st; working := working st;
        deployed_count := deployed_count st;
        skipped_count := skipped_count st + length (scripts listing);
        error_count := error_count st;
        trace := trace st ++ new |}) /\
    List.filter is_deployment new = [] /\
    forallb before_summary new = true.
Proof.
  induction listing as [|f l IH]; intros st Hall.
  - exists []. simpl. rewrite Nat.add_0_r, app_nil_r. destruct st. now split.
  - destruct (endswith (name f) ".sql") eqn:Hsql.
    + assert (Hs : scripts (f :: l) = f :: scripts l).
      { unfold scripts. simpl. now rewrite Hsql. }
      rewrite Hs in *.
      destruct (Hall f) as (data & Hdata & Hsame); [now left|].
      cbn [for_each]. unfold bind.
      rewrite (process_file_skip _ _ _ _ Hsql Hdata Hsame).
      match goal with |- context [for_each _ l ?s] =>
        destruct (IH s) as (new & E & F & P) end.
      { intros g Hg. apply Hall. now right. }
      exists (Log INFO (Skipping (name f)) :: new). rewrite E.
      cbn [committed working deployed_count skipped_count error_count trace length].
      rewrite <- app_assoc, <- Nat.add_succ_comm. now split.
    + assert (Hs : scripts (f :: l) = scripts l).
      { unfold scripts. simpl. now rewrite Hsql. }
      rewrite Hs in *.
      cbn [for_each]. unfold bind. rewrite (process_file_other _ _ _ Hsql).
      destruct (IH st Hall) as (new & E & F & P).
      exists new. rewrite E. now split.
Qed.

(** C2 (amended): when the scripts have distinct names, the metadata table
    obeys [store_laws], the first run ends with status 0 and the schema
    check succeeds again, the second run on the same files deploys nothing,
    skips every script, counts no error, sends neither statement nor upsert
    and exits with status 0. *)
Theorem second_run_after_success h d listing :
  scripts_dir h = Listing listing ->
  NoDup (script_names listing) ->
  store_laws listing ->
  (run h d).1 = Raise (SystemExit 0) ->
  (run_create_table (committed (run h d).2)).2 = true ->
  let st2 := (run h (committed (run h d).2)).2 in
  exit_status (run h (committed (run h d).2)).1 = 0 /\
  deployed_count st2 = 0 /\
  skipped_count st2 = length (scripts listing) /\
  error_count st2 = 0 /\
  executed (trace st2) = [] /\
  upserts (trace st2) = [] /\
  In (Log INFO (SummarySkipped (length (scripts listing)))) (trace st2).
Proof.
  intros Hdir Hnd L. unfold run. rewrite !deploy_unfold, Hdir.
  destruct (get_db_connection_spec h) as (r1 & n1 & E1 & _ & F1 & D1).
  rewrite !E1.
  destruct D1 as [(-> & _)|(-> & _)]; [|discriminate].
  rewrite ensure_metadata_table_exists_spec. cbn [after working start].
  destruct (run_create_table d) as [d0 [|]] eqn:Ec; [|discriminate].
  match goal with |- context [get_deployed_hashes ?s] =>
    destruct (get_deployed_hashes_spec s) as (dh & n3 & E3 & Hdh & _ & _) end.
  rewrite E3. cbn [working] in Hdh.
  match goal with |- context [for_each ?b listing ?s] =>
    destruct (for_each b listing s) as [[[]|e] st4] eqn:E4 end.
  2:{ apply for_each_raises in E4. subst e. discriminate. }
  cbn [fst snd].
  destruct (Nat.ltb 0 (error_count st4)) eqn:Herr; [discriminate|]. intros _.
  apply Nat.ltb_ge in Herr.
  assert (Inv : recorded dh listing st4).
  { refine (first_run_loop dh listing listing [] _ st4 eq_refl Hnd L E4 _ _); [lia|].
    split; [reflexivity|]. split; [intros f []|]. intros n _. simpl.
    symmetry. apply Hdh. }
  destruct Inv as (Hw & Hrec & _).
  cbn [after committed]. intros Hc2.
  rewrite ensure_metadata_table_exists_spec. cbn [after working start].
  destruct (run_create_table (committed st4)) as [d1 [|]] eqn:Ec2; [|discriminate Hc2].
  match goal with |- context [get_deployed_hashes ?s] =>
    destruct (get_deployed_hashes_spec s) as (dh2 & n5 & E5 & Hdh2 & _ & F5) end.
  rewrite E5. cbn [working] in Hdh2.
  match goal with |- context [for_each (process_file dh2) listing ?s] =>
    destruct (for_each_all_skip dh2 listing s) as (n6 & E6 & F6 & _) end.
  { intros f Hf. destruct (Hrec f Hf) as (data & Hdata & Hs). exists data.
    split; [exact Hdata|]. rewrite Hdh2.
    rewrite (create_table_stored listing L _ _ _ Ec2). now rewrite <- Hw. }
  rewrite E6. cbv zeta. simpl.
  split; [reflexivity|]. split; [reflexivity|]. split; [reflexivity|].
  split; [reflexivity|].
  assert (Hq : List.filter is_deployment
                 (((n1 ++ [Execute CreateTableSql true; Commit;
                           Log INFO EnsuredTableExists]) ++ n5) ++ n6) = []).
  { rewrite !List.filter_app, F1, F5, F6. reflexivity. }
  apply no_deployment_executed in Hq. destruct Hq as (Hx & Hu).
  rewrite executed_app, upserts_app, Hx, Hu. simpl.
  split; [reflexivity|]. split; [reflexivity|].
  apply in_or_app. right. simpl. tauto.
Qed.

(** *** A failed upsert *)

Lemma merge_ok_no_deployment t :
  List.filter is_deployment t = [] -> forallb merge_ok t = true.
Proof.
  induction t as [|e t IH]; [reflexivity|]. simpl.
  destruct e as [| | |q ok| | |]; simpl; try exact IH.
  destruct q; simpl; try exact IH; discriminate.
Qed.

(** Where the loop body returns, no upsert has failed. *)
Lemma process_file_merge_ok deployed_hashes f st st' :
  process_file deployed_hashes f st = (Ret tt, st') ->
  exists new, trace st' = trace st ++ new /\ forallb merge_ok new = true.
Proof.
  intros E.
  destruct (endswith (name f) ".sql") eqn:Hsql.
  2:{ rewrite (process_file_other _ _ _ Hsql) in E. injection E as <-.
      exists []. now rewrite app_nil_r. }
  destruct (contents f) as [data|] eqn:Hdata.
  2:{ rewrite (process_file_unreadable _ _ _ Hsql Hdata) in E. injection E as <-.
      now eexists. }
  destruct (decide (deployed_hashes !! splitext_root (name f)
                    = Some (sha256_hexdigest data))) as [Hsame|Hne].
  { rewrite (process_file_skip _ _ _ _ Hsql Hdata Hsame) in E. injection E as <-.
    now eexists. }
  destruct (decode_utf8_sig data) as [content|] eqn:Hdec.
  2:{ rewrite (process_file_undecodable _ _ _ _ Hsql Hdata Hdec Hne) in E.
      injection E as <-. now eexists. }
  rewrite (process_file_deploy _ _ _ _ _ Hsql Hdata Hdec Hne) in E. cbv zeta in E.
  destruct (execute_statements_emits merge_ok (name f) (split_statements content)
              ltac:(reflexivity) eq_refl eq_refl ltac:(reflexivity) ltac:(reflexivity)
              1 (after st [Log INFO (Deploying (name f))])) as (new & E2 & P2).
  destruct (execute_statements _ _ _ _) as [r2 st2]. cbn [fst snd after trace] in E2.
  destruct (Nat.eqb (error_count st2) 0).
  - rewrite update_deployment_metadata_spec in E.
    destruct (run_merge _ _ (working st2)) as [d' [|]]; [|discriminate E].
    injection E as <-. cbn [trace]. rewrite E2.
    exists ([Log INFO (Deploying (name f))] ++ new ++
            [Execute (MergeSql (splitext_root (name f)) (sha256_hexdigest data)) true;
             Commit; Log INFO (MetadataUpdated (splitext_root (name f)));
             Log INFO (SuccessfullyDeployed (name f))]).
    split; [now rewrite <- !app_assoc|].
    now rewrite !forallb_app, P2.
  - injection E as <-. rewrite E2.
    exists ([Log INFO (Deploying (name f))] ++ new).
    split; [now rewrite <- !app_assoc|]. now rewrite forallb_app, P2.
Qed.

Lemma for_each_merge_ok deployed_hashes listing : forall st st',
  for_each (process_file deployed_hashes) listing st = (Ret tt, st') ->
  exists new, trace st' = trace st ++ new /\ forallb merge_ok new = true.
Proof.
  induction listing as [|f l IH]; intros st st' E; simpl in E.
  - injection E as <-. exists []. now rewrite app_nil_r.
  - unfold bind in E.
    destruct (process_file deployed_hashes f st) as [[[]|e] st1] eqn:E1; [|discriminate].
    destruct (process_file_merge_ok _ _ _ _ E1) as (n1 & T1 & P1).
    destruct (IH _ _ E) as (n2 & T2 & P2).
    exists (n1 ++ n2). rewrite T2, T1, <- app_assoc, forallb_app, P1, P2. now split.
Qed.

(** A run in which an upsert fails ends with status 1 and no summary. *)
Lemma failed_upsert_is_fatal h d script_name new_hash :
  In (Execute (MergeSql script_name new_hash) false) (trace (run h d).2) ->
  exit_status (run h d).1 = 1 /\
  ~ In (Log INFO SummaryHeader) (trace (run h d).2).
Proof.
  unfold run. rewrite deploy_unfold.
  destruct (get_db_connection_spec h) as (r1 & n1 & E1 & P1 & F1 & D1).
  rewrite E1.
  destruct D1 as [(-> & _)|(-> & _)].
  2:{ intros _. split; [reflexivity|]. now apply (forallb_not_in _ _ _ P1). }
  rewrite ensure_metadata_table_exists_spec. cbn [after working start trace app].
  destruct (run_create_table d) as [d' [|]]; cbn [fst snd trace].
  2:{ intros _. split; [reflexivity|].
      apply (forallb_not_in before_summary); [|reflexivity].
      now rewrite forallb_app, P1. }
  match goal with |- context [get_deployed_hashes ?s] =>
    destruct (get_deployed_hashes_spec s) as (dh & n3 & E3 & _ & P3 & F3) end.
  rewrite E3. cbn [after trace].
  destruct (scripts_dir h) as [| |listing]; cbn [fst snd trace after].
  1,2: intros _; (split; [reflexivity|]);
    (apply (forallb_not_in before_summary); [|reflexivity]);
    now rewrite !forallb_app, P1, P3.
  match goal with |- context [for_each ?b listing ?s] =>
    destruct (for_each_emits before_summary b listing
                (process_file_before_summary dh) s) as (n4 & E4 & P4);
    destruct (for_each b listing s) as [r4 st4] eqn:Er4 end.
  cbn [fst snd trace after] in E4.
  destruct r4 as [[]|e]; cbn [fst snd trace after].
  - intros Hin. exfalso.
    destruct (for_each_merge_ok _ _ _ _ Er4) as (n4' & E4' & M4).
    cbn [trace after] in E4'. rewrite E4' in Hin.
    revert Hin. apply (forallb_not_in merge_ok); [|reflexivity].
    rewrite !forallb_app, M4, (merge_ok_no_deployment _ F1),
      (merge_ok_no_deployment _ F3).
    unfold summary. simpl. now destruct (error_count st4).
  - apply for_each_raises in Er4. subst e. intros _. split; [reflexivity|].
    rewrite E4. apply (forallb_not_in before_summary); [|reflexivity].
    now rewrite !forallb_app, P1, P3, P4.
Qed.

(** C9: when the SELECT on the metadata table fails,
    [get_deployed_hashes] logs a warning and returns the empty mapping, with
    which no script is skipped; when the upsert that follows the statements
    of a script fails, the loop ends at once with [SystemExit(1)], the
    script is not counted as deployed and nothing of the upsert is
    committed; and a run whose trace holds a failed upsert ends with
    status 1, before any summary. *)
Theorem metadata_failures :
  (forall st,
     run_select_hashes (working st) = None ->
     get_deployed_hashes st =
     (Ret ∅, after st [Execute SelectHashesSql false; Log WARNING ErrorFetchingHashes])) /\
  (forall f st, skipped_count (process_file ∅ f st).2 = skipped_count st) /\
  (forall deployed_hashes f rest data content st d1 d2,
     endswith (name f) ".sql" = true ->
     contents f = Some data ->
     decode_utf8_sig data = Some content ->
     deployed_hashes !! splitext_root (name f) <> Some (sha256_hexdigest data) ->
     error_count st = 0 ->
     apply_all (split_statements content) (working st) = Some d1 ->
     run_merge (splitext_root (name f)) (sha256_hexdigest data) d1 = (d2, false) ->
     exists st',
       for_each (process_file deployed_hashes) (f :: rest) st = (Raise (SystemExit 1), st') /\
       deployed_count st' = deployed_count st /\
       stored (committed st') = stored
         (match split_statements content with [] => committed st | _ => d1 end) /\
       last (trace st') =
         Some (Log ERROR (ErrorUpdatingMetadata (splitext_root (name f))))) /\
  (forall h d script_name new_hash,
     In (Execute (MergeSql script_name new_hash) false) (trace (run h d).2) ->
     exit_status (run h d).1 = 1 /\
     ~ In (Log INFO SummaryHeader) (trace (run h d).2)).
Proof.
  split; [|split; [|split; [|exact failed_upsert_is_fatal]]].
  - intros st E. unfold get_deployed_hashes, try_except, bind, cursor_select, bind.
    simpl. rewrite E. simpl. unfold after. now rewrite <- !app_assoc.
  - intros f st.
    destruct (endswith (name f) ".sql") eqn:Hsql;
      [|now rewrite process_file_other].
    destruct (contents f) as [data|] eqn:Hdata;
      [|now rewrite process_file_unreadable].
    assert (Hne : (∅ : gmap string string) !! splitext_root (name f)
                  <> Some (sha256_hexdigest data)) by now rewrite lookup_empty.
    destruct (decode_utf8_sig data) as [content|] eqn:Hdec;
      [|now rewrite (process_file_undecodable _ _ _ _ Hsql Hdata Hdec Hne)].
    now apply (process_file_changed ∅ f data content st Hsql Hdata Hdec).
  - intros deployed_hashes f rest data content st d1 d2
      Hsql Hdata Hdec Hne Herr Hall Hmerge.
    cbn [for_each]. unfold bind at 1.
    rewrite (process_file_deploy _ _ _ _ _ Hsql Hdata Hdec Hne). cbv zeta.
    destruct (execute_statements_spec (name f) (split_statements content) 1
                (after st [Log INFO (Deploying (name f))]))
      as (st2 & E & Hd & _ & _ & _ & Hdb).
    rewrite E. simpl in Hdb, Hd. rewrite Hall in Hdb. destruct Hdb as (He & Hw & Hc).
    rewrite He, Herr. simpl. rewrite update_deployment_metadata_spec, Hw, Hmerge.
    eexists. split; [reflexivity|]. simpl.
    repeat split; try assumption.
    + now rewrite Hc.
    + now rewrite last_app.
Qed.

(** C4: for a changed or new script of three statements whose second
    statement fails, the first statement is executed and committed, the
    second is rolled back (the working copy returns to the committed
    state), the third is never sent, one error is counted, no upsert is
    made, and the loop goes on with the next entry. *)
Theorem statement_isolation deployed_hashes f data content s1 s2 s3 st d1 d2 rest :
  endswith (name f) ".sql" = true ->
  contents f = Some data ->
  decode_utf8_sig data = Some content ->
  deployed_hashes !! splitext_root (name f) <> Some (sha256_hexdigest data) ->
  split_statements content = [s1; s2; s3] ->
  run_statement s1 (working st) = (d1, true) ->
  run_statement s2 d1 = (d2, false) ->
  let st' :=
    {| committed := d1; working := d1;
       deployed_count := deployed_count st; skipped_count := skipped_count st;
       error_count := S (error_count st);
       trace := trace st ++
         [Log INFO (Deploying (name f));
          Execute (Statement s1) true; Commit; Log INFO (ExecutedStatement 1 (name f));
          Execute (Statement s2) false; Log ERROR (ErrorInStatement (name f) 2);
          Rollback] |} in
  process_file deployed_hashes f st = (Ret tt, st') /\
  for_each (process_file deployed_hashes) (f :: rest) st
  = for_each (process_file deployed_hashes) rest st'.
Proof.
  intros Hsql Hdata Hdec Hne Hsplit H1 H2 st'.
  assert (E : process_file deployed_hashes f st = (Ret tt, st')).
  { unfold process_file. rewrite Hsql.
    unfold try_except, bind, calculate_file_hash, read_text. rewrite Hdata. simpl.
    rewrite (stored_hash_test_false _ _ _ Hne). simpl.
    rewrite Hdec. simpl. rewrite Hsplit. simpl.
    unfold try_except, bind, cursor_execute, bind. simpl.
    rewrite H1. simpl. rewrite H2. simpl.
    subst st'. repeat rewrite <- app_assoc. reflexivity. }
  split; [exact E|].
  simpl. now rewrite (bind_ret _ _ _ _ _ E).
Qed.

End Engine.

(** ** Concrete runs *)

Section Runs.
Import Toy.

(** The toy metadata table obeys the laws the engine relies on. *)
Lemma fold_rows_snoc (rows : list (string * string)) n h :
  fold_left (fun m row => <[row.1 := row.2]> m) (rows ++ [(n, h)])
    (∅ : gmap string string)
  = <[n := h]> (fold_left (fun m row => <[row.1 := row.2]> m) rows ∅).
Proof. now rewrite fold_left_app. Qed.

Lemma fold_rows_filter (rows : list (string * string)) n n' :
  n' <> n ->
  fold_left (fun m row => <[row.1 := row.2]> m)
    (List.filter (fun row => negb (String.eqb row.1 n)) rows)
    (∅ : gmap string string) !! n'
  = fold_left (fun m row => <[row.1 := row.2]> m) rows (∅ : gmap string string) !! n'.
Proof.
  intros Hne. induction rows as [|[k v] rows IH] using rev_ind; [reflexivity|].
  rewrite List.filter_app, !fold_left_app. simpl.
  destruct (String.eqb k n) eqn:Ek; simpl.
  - apply String.eqb_eq in Ek. subst k. rewrite lookup_insert_ne by congruence.
    exact IH.
  - destruct (decide (k = n')) as [->|Hk].
    + now rewrite !lookup_insert_eq.
    + rewrite !lookup_insert_ne by exact Hk. exact IH.
Qed.

Lemma toy_store_laws listing : store_laws listing.
Proof.
  split.
  - intros n h d d' E. unfold stored. simpl in *. unfold merge in E.
    destruct (metadata d) as [rows|]; [|discriminate E].
    injection E as <-. simpl. unfold upsert.
    rewrite fold_rows_snoc. apply lookup_insert_eq.
  - intros n h d d' n' E Hne. unfold stored. simpl in *. unfold merge in E.
    destruct (metadata d) as [rows|]; [|discriminate E].
    injection E as <-. simpl. unfold upsert.
    rewrite fold_rows_snoc, lookup_insert_ne by congruence.
    now apply fold_rows_filter.
  - intros d d' n E. unfold stored. simpl in *. unfold create_table in E.
    destruct (metadata d) as [rows|] eqn:Em.
    + injection E as <-. now rewrite Em.
    + injection E as <-. reflexivity.
  - intros stmt d d' n _ E. unfold stored. simpl in *. unfold statement in E.
    now injection E as <- _.
Qed.

(** C1: of five scripts the first fails and the other four run without
    error; all their statements reach the database, yet no fingerprint is
    upserted and the summary counts no script as deployed.  Listed with the
    failing script last, the same five scripts give four deployed and one
    error. *)
Theorem failure_blocks_later_deployments :
  (let '(r, st) := run (host_with (Listing five_scripts)) Toy.empty in
   exit_status r = 1 /\
   deployed_count st = 0 /\ skipped_count st = 0 /\ error_count st = 1 /\
   length (executed (trace st)) = 5 /\
   upserts (trace st) = [] /\
   metadata (committed st) = Some [] /\
   In (Log INFO (SummaryDeployed 0)) (trace st) /\
   In (Log INFO (SummaryErrors 1)) (trace st)) /\
  (let '(r, st) := run (host_with (Listing five_scripts_failure_last)) Toy.empty in
   exit_status r = 1 /\
   deployed_count st = 4 /\ skipped_count st = 0 /\ error_count st = 1 /\
   length (upserts (trace st)) = 4).
Proof. split; vm_compute; intuition. Qed.

(** C2, counterexample: a script whose statement fails is run again,
    and fails again, in the second run. *)
Lemma second_run_repeats_failure :
  let st1 := (run (host_with (Listing failing_script)) Toy.empty).2 in
  let st2 := (run (host_with (Listing failing_script)) (committed st1)).2 in
  (deployed_count st2 = 0 /\ skipped_count st2 = 0 /\ error_count st2 = 1) /\
  ~ second_run_skips_all (host_with (Listing failing_script)) Toy.empty.
Proof.
  split; [vm_compute; tauto|].
  unfold second_run_skips_all. vm_compute. intros (_ & E & _). discriminate E.
Qed.

(** C6, counterexample: with an empty directory the run ends with
    status 0, and with a missing one the schema check has already
    created the metadata table. *)
Lemma empty_or_missing_directory :
  ~ fatal_without_writes (host_with (Listing [])) Toy.empty /\
  ~ fatal_without_writes (host_with Missing) Toy.empty.
Proof.
  split; intros C.
  - destruct (C (or_intror eq_refl)) as (E & _). apply E. reflexivity.
  - destruct (C (or_introl eq_refl)) as (_ & E & _). vm_compute in E. discriminate E.
Qed.

(** C7: with [DB_PORT] unset and the other four parameters set the
    program calls [pyodbc.connect] and goes on to a successful run. *)
Theorem missing_port_still_connects :
  let '(r, st) := run host_without_port Toy.empty in
  DB_PORT (env host_without_port) = None /\
  existsb is_connect (trace st) = true /\
  ~ In (Log ERROR EnvironmentVariablesMustBeSet) (trace st) /\
  exit_status r = 0.
Proof. vm_compute. intuition discriminate. Qed.

(** C8, counterexample: with the scripts directory missing the run
    connects and exits without closing the connection. *)
Lemma fatal_exit_leaves_connection_open :
  exit_status (run (host_with Missing) Toy.empty).1 = 1 /\
  ~ closes_connection (host_with Missing) Toy.empty.
Proof.
  split; [reflexivity|].
  unfold closes_connection. intros C.
  assert (P : In Close (trace (run (host_with Missing) Toy.empty).2)).
  { apply C. vm_compute. tauto. }
  vm_compute in P. intuition discriminate.
Qed.

(** *** The theorems at work on the toy database *)

Lemma second_run_after_success_witness :
  let st2 := (run (host_with (Listing two_scripts))
                (committed (run (host_with (Listing two_scripts)) Toy.empty).2)).2 in
  deployed_count st2 = 0 /\
  skipped_count st2 = length (scripts two_scripts) /\
  error_count st2 = 0.
Proof.
  destruct (second_run_after_success (H := backend) (host_with (Listing two_scripts))
              Toy.empty two_scripts) as (_ & Hd & Hs & He & _).
  - reflexivity.
  - vm_compute. repeat constructor; intros Hin; inversion Hin; subst;
      match goal with H : _ ∈ _ |- _ => inversion H end.
  - apply toy_store_laws.
  - vm_compute. reflexivity.
  - vm_compute. reflexivity.
  - exact (conj Hd (conj Hs He)).
Defined.

Lemma change_detection_witness :
  executed (trace (process_file ∅ (file "b.sql" "SELECT 2") fresh).2)
  = executed (trace fresh) ++
    attempted (split_statements (text_of_string "SELECT 2")) (working fresh).
Proof.
  destruct (change_detection (H := backend) ∅ (file "b.sql" "SELECT 2")
              (list_byte_of_string "SELECT 2") (text_of_string "SELECT 2")
              fresh eq_refl eq_refl eq_refl) as (_ & H & _).
  destruct H as (H & _); [now rewrite lookup_empty|].
  exact H.
Defined.

Lemma statement_isolation_witness :
  error_count (process_file ∅ three_statements fresh).2 = 1 /\
  applied (committed (process_file ∅ three_statements fresh).2)
  = [text_of_string "SELECT 1"].
Proof.
  destruct (statement_isolation (H := backend) ∅ three_statements
              (list_byte_of_string
                 ("SELECT 1" ++ newline ++ "GO" ++ newline ++
                  "THROW 2" ++ newline ++ "GO" ++ newline ++ "SELECT 3"))
              (text_of_string
                 ("SELECT 1" ++ newline ++ "GO" ++ newline ++
                  "THROW 2" ++ newline ++ "GO" ++ newline ++ "SELECT 3"))
              (text_of_string "SELECT 1") (text_of_string "THROW 2")
              (text_of_string "SELECT 3") fresh
              {| metadata := None; applied := [text_of_string "SELECT 1"] |}
              {| metadata := None;
                 applied := [text_of_string "SELECT 1"; text_of_string "THROW 2"] |}
              [])
    as (E & _).
  - reflexivity.
  - reflexivity.
  - reflexivity.
  - now rewrite lookup_empty.
  - vm_compute. reflexivity.
  - vm_compute. reflexivity.
  - vm_compute. reflexivity.
  - rewrite E. split; reflexivity.
Defined.

Lemma directory_without_scripts_witness :
  exit_status (run (host_with Missing) Toy.empty).1 = 1.
Proof.
  destruct (directory_without_scripts (H := backend) (host_with Missing) Toy.empty
              initialised) as (k & _ & _ & Hmissing & _).
  - split; [reflexivity|]. exists 0. split; [unfold max_retries; lia|reflexivity].
  - reflexivity.
  - rewrite (Hmissing eq_refl). reflexivity.
Defined.

Lemma metadata_failures_witness :
  exists st',
    for_each (process_file ∅) [file "b.sql" "SELECT 2"] fresh
    = (Raise (SystemExit 1), st') /\
    deployed_count st' = deployed_count fresh.
Proof.
  destruct (metadata_failures (H := backend)) as (_ & _ & H & _).
  destruct (H ∅ (file "b.sql" "SELECT 2") [] (list_byte_of_string "SELECT 2")
              (text_of_string "SELECT 2") fresh
              {| metadata := None; applied := [text_of_string "SELECT 2"] |}
              {| metadata := None; applied := [text_of_string "SELECT 2"] |})
    as (st' & E & Hd & _).
  - reflexivity.
  - reflexivity.
  - reflexivity.
  - now rewrite lookup_empty.
  - reflexivity.
  - vm_compute. reflexivity.
  - vm_compute. reflexivity.
  - exists st'. exact (conj E Hd).
Defined.

Lemma empty_script_is_deployed_witness :
  deployed_count (process_file ∅ only_separator ready).2 = 1.
Proof.
  rewrite (proj1 (empty_script_is_deployed (H := backend) ∅ only_separator
             (list_byte_of_string ("GO" ++ newline))
             (text_of_string ("GO" ++ newline)) ready
             {| metadata := Some [("empty", digest (list_byte_of_string ("GO" ++ newline)))];
                applied := [] |} eq_refl eq_refl eq_refl
             ltac:(now rewrite lookup_empty) ltac:(vm_compute; reflexivity) eq_refl
             ltac:(vm_compute; reflexivity))).
  reflexivity.
Defined.

End Runs.

(** * Further properties of main.py and deploy.py *)

Section Scripts.
Context `{Backend}.

Ltac run_program :=
  repeat (progress
    (unfold try_except, bind, cursor_execute, cursor_select,
       cnxn_commit, cnxn_rollback, cnxn_close, log, emit,
       incr_deployed, incr_skipped, incr_error, set_working, set_committed,
       modify, get, ret, raise, sys_exit; simpl)).

(** ** The statement loop *)

Lemma execute_statements_success filename statements : forall i st d,
  apply_all statements (working st) = Some d ->
  execute_statements filename i statements st =
  (Ret tt,
   {| committed := match statements with [] => committed st | _ :: _ => d end;
      working := d;
      deployed_count := deployed_count st; skipped_count := skipped_count st;
      error_count := error_count st;
      trace := trace st ++ executed_events filename i statements |}).
Proof.
  induction statements as [|stmt l IH]; intros i st d E.
  - simpl in E. injection E as <-. simpl. rewrite app_nil_r. now destruct st.
  - cbn [apply_all] in E.
    destruct (run_statement stmt (working st)) as [d1 [|]] eqn:E1; [|discriminate].
    cbn [execute_statements executed_events]. unfold bind at 1.
    unfold try_except, bind, cursor_execute, bind. simpl. rewrite E1. simpl.
    rewrite (IH _ _ d) by exact E. simpl. rewrite <- !app_assoc. simpl.
    destruct l; [|reflexivity]. simpl in E. now injection E as <-.
Qed.

(** X1: when the statements before the [k]-th all succeed and the [k]-th
    fails, the loop commits each of the first ones on its own, logs the
    failure under the 1-based index of the failing statement, counts one
    error, rolls back to the last commit and sends none of the statements
    that follow. *)
Theorem statement_failure_at filename pre stmt post : forall i st d1 d2,
  apply_all pre (working st) = Some d1 ->
  run_statement stmt d1 = (d2, false) ->
  execute_statements filename i (pre ++ stmt :: post) st =
  (Ret tt,
   {| committed := match pre with [] => committed st | _ :: _ => d1 end;
      working := match pre with [] => committed st | _ :: _ => d1 end;
      deployed_count := deployed_count st; skipped_count := skipped_count st;
      error_count := S (error_count st);
      trace := trace st ++ executed_events filename i pre ++
        [Execute (Statement stmt) false;
         Log ERROR (ErrorInStatement filename (i + length pre));
         Rollback] |}).
Proof.
  induction pre as [|s0 pre IH]; intros i st d1 d2 E1 E2.
  - simpl in E1. injection E1 as <-.
    cbn [app execute_statements executed_events length]. unfold bind at 1.
    unfold try_except, bind, cursor_execute, bind. simpl. rewrite E2. simpl.
    now rewrite Nat.add_0_r, <- !app_assoc.
  - cbn [apply_all] in E1.
    destruct (run_statement s0 (working st)) as [d0 [|]] eqn:E0; [|discriminate].
    cbn [app execute_statements executed_events length]. unfold bind at 1.
    unfold try_except, bind, cursor_execute, bind. simpl. rewrite E0. simpl.
    rewrite (IH _ _ d1 d2) by assumption. simpl.
    rewrite <- !app_assoc, Nat.add_succ_r. simpl.
    destruct pre; [|reflexivity]. simpl in E1. now injection E1 as <-.
Qed.

(** ** One script *)

(** X2: a changed or new script whose statements all succeed, in a run
    that has counted no error, with an upsert that succeeds: every
    statement is committed on its own, then the fingerprint of the contents
    is upserted under the script's name and committed, and the script is
    counted as deployed.  On a metadata table that obeys [store_laws] the
    table then holds that fingerprint for the script and what it held
    before for every other name. *)
Theorem successful_deployment deployed_hashes f data content st d1 d2 :
  endswith (name f) ".sql" = true ->
  contents f = Some data ->
  decode_utf8_sig data = Some content ->
  deployed_hashes !! splitext_root (name f) <> Some (sha256_hexdigest data) ->
  error_count st = 0 ->
  apply_all (split_statements content) (working st) = Some d1 ->
  run_merge (splitext_root (name f)) (sha256_hexdigest data) d1 = (d2, true) ->
  process_file deployed_hashes f st =
  (Ret tt,
   {| committed := d2; working := d2;
      deployed_count := S (deployed_count st); skipped_count := skipped_count st;
      error_count := 0;
      trace := trace st ++
        Log INFO (Deploying (name f)) ::
        executed_events (name f) 1 (split_statements content) ++
        [Execute (MergeSql (splitext_root (name f)) (sha256_hexdigest data)) true;
         Commit;
         Log INFO (MetadataUpdated (splitext_root (name f)));
         Log INFO (SuccessfullyDeployed (name f))] |}) /\
  (forall listing,
     store_laws listing -> In f listing ->
     stored d2 (splitext_root (name f)) = Some (sha256_hexdigest data) /\
     forall n, n <> splitext_root (name f) -> stored d2 n = stored (working st) n).
Proof.
  intros Hsql Hdata Hdec Hne Herr Hall Hmerge. split.
  - rewrite (process_file_deploy _ _ _ _ _ Hsql Hdata Hdec Hne). cbv zeta.
    rewrite (execute_statements_success _ _ _ _ d1) by exact Hall.
    cbn [error_count after]. rewrite Herr. cbn [Nat.eqb].
    rewrite update_deployment_metadata_spec. cbn [working]. rewrite Hmerge.
    cbn [committed working deployed_count skipped_count error_count trace after].
    rewrite ?Herr, <- ?app_assoc. reflexivity.
  - intros listing L Hin. split.
    + exact (merge_stored listing L _ _ _ _ Hmerge).
    + intros n Hn. rewrite (merge_other listing L _ _ _ _ n Hmerge Hn).
      apply (apply_all_stored listing (split_statements content)); try assumption.
      intros stmt Hs. now exists f, data, content.
Qed.

(** X3: a script that cannot be opened, or whose changed contents cannot
    be decoded, costs exactly one error: nothing is sent to the database
    but a rollback, the other counters stay, and the loop goes on. *)
Theorem unreadable_script_is_one_error deployed_hashes f st :
  endswith (name f) ".sql" = true ->
  (contents f = None \/
   exists data, contents f = Some data /\ decode_utf8_sig data = None /\
     deployed_hashes !! splitext_root (name f) <> Some (sha256_hexdigest data)) ->
  exists new,
    process_file deployed_hashes f st =
    (Ret tt,
     {| committed := committed st; working := committed st;
        deployed_count := deployed_count st; skipped_count := skipped_count st;
        error_count := S (error_count st);
        trace := trace st ++ new |}) /\
    List.filter is_write new = [] /\
    last new = Some Rollback /\
    In (Log ERROR (UnexpectedError (name f))) new.
Proof.
  intros Hsql [Hnone|(data & Hdata & Hdec & Hne)].
  - rewrite (process_file_unreadable _ _ _ Hsql Hnone).
    eexists. split; [reflexivity|]. simpl. tauto.
  - rewrite (process_file_undecodable _ _ _ _ Hsql Hdata Hdec Hne).
    eexists. split; [reflexivity|]. simpl. tauto.
Qed.

(** Once an error is counted, a script is neither recorded nor counted as
    deployed, whatever its statements do. *)
Lemma process_file_after_error deployed_hashes f st :
  0 < error_count st ->
  exists st',
    process_file deployed_hashes f st = (Ret tt, st') /\
    0 < error_count st' /\
    deployed_count st' = deployed_count st /\
    upserts (trace st') = upserts (trace st).
Proof.
  intros Herr.
  destruct (endswith (name f) ".sql") eqn:Hsql.
  2:{ rewrite (process_file_other _ _ _ Hsql). now exists st. }
  destruct (contents f) as [data|] eqn:Hdata.
  2:{ rewrite (process_file_unreadable _ _ _ Hsql Hdata). eexists.
      split; [reflexivity|]. simpl. rewrite upserts_app. simpl.
      rewrite app_nil_r. split; [lia|]. now split. }
  destruct (decide (deployed_hashes !! splitext_root (name f)
                    = Some (sha256_hexdigest data))) as [Hsame|Hne].
  { rewrite (process_file_skip _ _ _ _ Hsql Hdata Hsame). eexists.
    split; [reflexivity|]. simpl. rewrite upserts_app. simpl.
    now rewrite app_nil_r. }
  destruct (decode_utf8_sig data) as [content|] eqn:Hdec.
  2:{ rewrite (process_file_undecodable _ _ _ _ Hsql Hdata Hdec Hne). eexists.
      split; [reflexivity|]. simpl. rewrite upserts_app. simpl.
      rewrite app_nil_r. split; [lia|]. now split. }
  rewrite (process_file_deploy _ _ _ _ _ Hsql Hdata Hdec Hne). cbv zeta.
  destruct (execute_statements_spec (name f) (split_statements content) 1
              (after st [Log INFO (Deploying (name f))]))
    as (st2 & E & Hd & _ & _ & Hu & Hdb).
  rewrite E. simpl in Hd, Hu, Hdb. rewrite upserts_app in Hu. simpl in Hu.
  rewrite app_nil_r in Hu.
  assert (Hpos : 0 < error_count st2).
  { destruct (apply_all _ _); destruct Hdb as (-> & _); lia. }
  destruct (error_count st2) as [|k] eqn:Hk; [lia|]. cbn [Nat.eqb].
  exists st2. rewrite Hk. split; [reflexivity|]. split; [lia|]. now split.
Qed.

(** X4: from the first error of a run on, the loop upserts no fingerprint
    and counts no script as deployed, although it goes through every
    remaining entry: the guard of the upsert reads the error counter of the
    whole run. *)
Theorem no_record_after_error deployed_hashes listing : forall st,
  0 < error_count st ->
  exists st',
    for_each (process_file deployed_hashes) listing st = (Ret tt, st') /\
    0 < error_count st' /\
    deployed_count st' = deployed_count st /\
    upserts (trace st') = upserts (trace st).
Proof.
  induction listing as [|f l IH]; intros st Herr.
  - exists st. now repeat split.
  - destruct (process_file_after_error deployed_hashes f st Herr)
      as (st1 & E1 & H1 & D1 & U1).
    destruct (IH st1 H1) as (st' & E & H' & D' & U').
    exists st'. cbn [for_each]. unfold bind. rewrite E1, E.
    repeat split; try assumption; congruence.
Qed.

(** ** The loop over the directory *)

(** What one entry does to the counters. *)
Lemma process_file_counts deployed_hashes f st :
  let r := process_file deployed_hashes f st in
  if endswith (name f) ".sql" then
    (r.1 = Ret tt /\ error_count st = 0 /\
     deployed_count r.2 = S (deployed_count st) /\
     skipped_count r.2 = skipped_count st /\ error_count r.2 = error_count st) \/
    (r.1 = Ret tt /\
     deployed_count r.2 = deployed_count st /\
     skipped_count r.2 = S (skipped_count st) /\ error_count r.2 = error_count st) \/
    (r.1 = Ret tt /\
     deployed_count r.2 = deployed_count st /\
     skipped_count r.2 = skipped_count st /\ error_count r.2 = S (error_count st)) \/
    ((r.1 = Ret tt /\ 0 < error_count st \/ r.1 = Raise (SystemExit 1)) /\
     deployed_count r.2 = deployed_count st /\
     skipped_count r.2 = skipped_count st /\ error_count r.2 = error_count st)
  else r = (Ret tt, st).
Proof.
  cbv zeta. destruct (endswith (name f) ".sql") eqn:Hsql.
  2:{ now apply process_file_other. }
  destruct (contents f) as [data|] eqn:Hdata.
  2:{ rewrite (process_file_unreadable _ _ _ Hsql Hdata). simpl. tauto. }
  destruct (decide (deployed_hashes !! splitext_root (name f)
                    = Some (sha256_hexdigest data))) as [Hsame|Hne].
  { rewrite (process_file_skip _ _ _ _ Hsql Hdata Hsame). simpl. tauto. }
  destruct (decode_utf8_sig data) as [content|] eqn:Hdec.
  2:{ rewrite (process_file_undecodable _ _ _ _ Hsql Hdata Hdec Hne). simpl. tauto. }
  rewrite (process_file_deploy _ _ _ _ _ Hsql Hdata Hdec Hne). cbv zeta.
  destruct (execute_statements_spec (name f) (split_statements content) 1
              (after st [Log INFO (Deploying (name f))]))
    as (st2 & E & Hd & Hs & _ & _ & Hdb).
  rewrite E. simpl in Hd, Hs, Hdb.
  destruct (apply_all (split_statements content) (working st)) as [d1|].
  - destruct Hdb as (He & _).
    destruct (Nat.eqb (error_count st2) 0) eqn:Hz.
    + apply Nat.eqb_eq in Hz. rewrite update_deployment_metadata_spec.
      destruct (run_merge _ _ (working st2)) as [d' [|]]; simpl.
      * left. repeat split; congruence.
      * right. right. right. repeat split; try congruence. now right.
    + apply Nat.eqb_neq in Hz. simpl. right. right. right.
      repeat split; try congruence. left. split; [reflexivity|]. lia.
  - destruct Hdb as (He & _). rewrite He. simpl. right. right. left.
    now repeat split.
Qed.

(** X5: the loop never lowers a counter and moves the three counters
    together by at most one per [.sql] entry; when it ends without any
    error counted, every [.sql] entry is counted once, as deployed or as
    skipped. *)
Theorem counters_account_for_scripts deployed_hashes listing : forall st,
  let r := for_each (process_file deployed_hashes) listing st in
  deployed_count st <= deployed_count r.2 /\
  skipped_count st <= skipped_count r.2 /\
  error_count st <= error_count r.2 /\
  accounted r.2 <= accounted st + length (scripts listing) /\
  (r.1 = Ret tt -> error_count r.2 = 0 ->
   deployed_count r.2 + skipped_count r.2
   = deployed_count st + skipped_count st + length (scripts listing)).
Proof.
  unfold accounted.
  induction listing as [|f l IH]; intros st; cbv zeta.
  - simpl. repeat split; lia.
  - cbn [for_each]. unfold bind.
    pose proof (process_file_counts deployed_hashes f st) as Hf. cbv zeta in Hf.
    unfold scripts. cbn [List.filter]. fold (scripts l).
    destruct (endswith (name f) ".sql") eqn:Hsql.
    2:{ rewrite Hf. specialize (IH st). cbv zeta in IH. exact IH. }
    destruct (process_file deployed_hashes f st) as [[[]|e] st1]; cbn [fst snd] in *.
    + specialize (IH st1). cbv zeta in IH.
      destruct IH as (I1 & I2 & I3 & I4 & I5). cbn [length].
      destruct Hf as [(_ & Hz & H1 & H2 & H3)|[(_ & H1 & H2 & H3)|
                      [(_ & H1 & H2 & H3)|([(_ & Hp)|[=]] & H1 & H2 & H3)]]];
        (repeat split; [lia|lia|lia|lia|]); intros Hr Hzero;
        specialize (I5 Hr Hzero); lia.
    + cbn [length].
      destruct Hf as [([=] & _)|[([=] & _)|[([=] & _)|(_ & H1 & H2 & H3)]]].
      repeat split; try lia. discriminate.
Qed.

(** X6: the entries of the directory that are not named [*.sql] play no
    part: the loop over the listing is the loop over its scripts. *)
Theorem other_entries_ignored deployed_hashes listing : forall st,
  for_each (process_file deployed_hashes) listing st
  = for_each (process_file deployed_hashes) (scripts listing) st.
Proof.
  induction listing as [|f l IH]; intros st; [reflexivity|].
  unfold scripts. cbn [List.filter]. fold (scripts l).
  destruct (endswith (name f) ".sql") eqn:Hsql; cbn [for_each]; unfold bind.
  - destruct (process_file deployed_hashes f st) as [[[]|e] st1]; [apply IH|reflexivity].
  - rewrite (process_file_other _ _ _ Hsql). apply IH.
Qed.



(** ** The whole run *)


(** [deploy_stored_procedures] never returns: it ends in [sys.exit], or
    in the [OSError] that [os.listdir] raises. *)
Lemma deploy_stored_procedures_raises h st :
  exists e st', deploy_stored_procedures h st = (Raise e, st').
Proof.
  rewrite deploy_unfold.
  destruct (get_db_connection_spec h) as (r1 & n1 & E1 & _ & _ & D1).
  rewrite E1.
  destruct D1 as [(-> & _)|(-> & _)]; [|eauto].
  rewrite ensure_metadata_table_exists_spec.
  destruct (run_create_table _) as [d' [|]]; [|eauto].
  match goal with |- context [get_deployed_hashes ?s] =>
    destruct (get_deployed_hashes_spec s) as (dh & n3 & E3 & _) end.
  rewrite E3.
  destruct (scripts_dir h) as [| |listing]; [eauto|eauto|].
  match goal with |- context [for_each ?b listing ?s] =>
    destruct (for_each b listing s) as [[[]|e] st4] eqn:Er4 end; eauto.
Qed.

(** X8: no run returns normally.  A run ends through [sys.exit] with
    status 0 or 1, or by the [OSError] that [os.listdir] raises outside
    every handler.  The status is 0 exactly when the run has logged its
    summary and counted no error.  The run ends by the [OSError] only when
    the path exists and cannot be listed, with the connection open and
    never closed; and it does so whenever, with such a path, the
    connection is obtained and the schema check succeeds. *)
Theorem run_outcomes h d :
  let r := (run h d).1 in
  (r = Raise (SystemExit 0) \/ r = Raise (SystemExit 1) \/ r = Raise OSError) /\
  (r = Raise (SystemExit 0) <->
   In (Log INFO SummaryHeader) (trace (run h d).2) /\ error_count (run h d).2 = 0) /\
  (r = Raise OSError ->
   scripts_dir h = Unlistable /\
   In (Connect true) (trace (run h d).2) /\ ~ In Close (trace (run h d).2)) /\
  (scripts_dir h = Unlistable -> connects h -> (run_create_table d).2 = true ->
   r = Raise OSError).
Proof.
  cbv zeta. unfold run. rewrite deploy_unfold.
  destruct (get_db_connection_spec h) as (r1 & n1 & E1 & P1 & _ & D1).
  rewrite E1.
  assert (Q : forall new (st : state),
            forallb before_summary new = true ->
            @Raise unit (SystemExit 1) = Raise (SystemExit 0) <->
            In (Log INFO SummaryHeader) new /\ error_count st = 0).
  { intros new st Hq. split; [discriminate|]. intros (Hin & _). exfalso.
    revert Hin. now apply (forallb_not_in _ _ _ Hq). }
  destruct D1 as [(-> & Hconn)|(-> & Hno)].
  2:{ cbn [fst snd]. split; [tauto|]. split; [now apply Q|].
      split; [discriminate|]. intros _ Hc. now destruct Hno. }
  rewrite ensure_metadata_table_exists_spec. cbn [after working start trace app].
  destruct (run_create_table d) as [d' [|]]; cbn [fst snd trace].
  2:{ split; [tauto|]. split; [apply Q; now rewrite forallb_app, P1|].
      split; discriminate. }
  match goal with |- context [get_deployed_hashes ?s] =>
    destruct (get_deployed_hashes_spec s) as (dh & n3 & E3 & _ & P3 & _) end.
  rewrite E3. cbn [after trace].
  destruct (scripts_dir h) as [| |listing]; cbn [fst snd trace after].
  - split; [tauto|]. split; [apply Q; now rewrite !forallb_app, P1, P3|].
    split; discriminate.
  - split; [tauto|]. split.
    { split; [discriminate|]. intros (Hin & _). exfalso. revert Hin.
      apply (forallb_not_in before_summary); [|reflexivity].
      now rewrite !forallb_app, P1, P3. }
    split; [|reflexivity]. intros _. split; [reflexivity|]. split.
    + apply in_or_app. left. apply in_or_app. left. exact Hconn.
    + apply (forallb_not_in before_summary); [|reflexivity].
      now rewrite !forallb_app, P1, P3.
  - match goal with |- context [for_each ?b listing ?s] =>
      destruct (for_each_emits before_summary b listing
                  (process_file_before_summary dh) s) as (n4 & E4 & P4);
      destruct (for_each b listing s) as [r4 st4] eqn:Er4 end.
    cbn [fst snd trace after] in E4.
    destruct r4 as [[]|e]; cbn [fst snd trace after error_count].
    + assert (Hin : In (Log INFO SummaryHeader) (trace st4 ++ summary st4)).
      { apply in_or_app. right. simpl. tauto. }
      destruct (error_count st4) as [|k]; cbn [Nat.ltb Nat.leb].
      * split; [tauto|]. split; [tauto|]. split; discriminate.
      * split; [tauto|]. split; [|split; discriminate].
        split; [discriminate|]. intros (_ & [=]).
    + apply for_each_raises in Er4. subst e.
      split; [tauto|]. split; [|split; discriminate].
      rewrite E4. apply Q. now rewrite !forallb_app, P1, P3, P4.
Qed.

(** X9: [deploy()] of deploy.py prints its first line only: the call of
    [deploy_stored_procedures] never returns, it ends in [sys.exit] or in
    an exception, so the line that reports the end of the orchestration is
    never printed. *)
Theorem deploy_never_reports_finish h d :
  (deploy h d).1 = ["Starting deployment orchestration..."%string] /\
  exists e, (deploy h d).2.1 = Raise e.
Proof.
  unfold deploy.
  destruct (deploy_stored_procedures_raises h (start d)) as (e & st' & E).
  rewrite E. split; [reflexivity|]. now exists e.
Qed.

(** ** Connecting *)

(** X10: with the four checked parameters set and one of the ten attempts
    succeeding, the connection is obtained at the first attempt that
    succeeds: each failed attempt before it is logged as a warning and
    followed by a sleep of 5 seconds, and nothing else happens. *)
Theorem connection_after_retries h st :
  connects h ->
  exists k,
    k < 10 /\ connect_ok h k = true /\
    (forall i, i < k -> connect_ok h i = false) /\
    get_db_connection h st =
    (Ret tt,
     after st (Log INFO AttemptingToConnect :: failed_attempts (seq 0 k) ++
               [Connect true; Log INFO SuccessfullyConnected])).
Proof.
  intros (Henv & i & Hi & Hok).
  destruct (first_success h 10) as [Hall|(k & Hk & Hokk & Hf)].
  - rewrite Hall in Hok by exact Hi. discriminate Hok.
  - exists k. repeat split; try assumption. now apply get_db_connection_at.
Qed.

(** X11: with the four checked parameters set and every attempt failing,
    the run makes exactly ten attempts, sleeps 5 seconds after each of
    them, the last one included, and exits with status 1 without any call
    on the database. *)
Theorem connection_retries_exhausted h d :
  forallb env_truthy
    [DB_SERVER (env h); DB_DATABASE (env h); DB_USERNAME (env h); DB_PASSWORD (env h)]
  = true ->
  (forall i, i < 10 -> connect_ok h i = false) ->
  run h d =
  (Raise (SystemExit 1),
   after (start d)
     (Log INFO AttemptingToConnect :: failed_attempts (seq 0 10) ++
      [Log ERROR FailedToConnect])).
Proof.
  intros Henv Hf. unfold run, deploy_stored_procedures. unfold bind at 1.
  unfold get_db_connection. rewrite Henv. cbn [negb].
  unfold log at 1. rewrite bind_emit.
  rewrite <- (app_nil_r (seq 0 max_retries)).
  rewrite connect_loop_failures by (intros i Hi; apply Hf; unfold max_retries in Hi; lia).
  cbn [connect_loop]. unfold log. rewrite bind_emit.
  unfold sys_exit, raise, after, max_retries. simpl. reflexivity.
Qed.

(** X12: when one of the four checked parameters is unset or empty, the
    run logs the configuration error and exits with status 1; it never
    calls [pyodbc.connect] and does nothing on the database, whatever the
    server would have answered. *)
Theorem missing_configuration_is_fatal h d :
  forallb env_truthy
    [DB_SERVER (env h); DB_DATABASE (env h); DB_USERNAME (env h); DB_PASSWORD (env h)]
  = false ->
  run h d =
  (Raise (SystemExit 1),
   after (start d)
     [Log INFO AttemptingToConnect; Log ERROR EnvironmentVariablesMustBeSet]).
Proof.
  intros Henv. unfold run, deploy_stored_procedures. unfold bind at 1.
  unfold get_db_connection. rewrite Henv. reflexivity.
Qed.

(** X13: when the schema check fails after the connection is obtained,
    the run exits with status 1 right after logging the error: nothing is
    committed, the metadata is not read, no script is looked at and the
    connection is not closed. *)
Theorem schema_failure_is_fatal h d d' :
  connects h ->
  run_create_table d = (d', false) ->
  exists k,
    k < 10 /\
    run h d =
    (Raise (SystemExit 1),
     {| committed := d; working := d';
        deployed_count := 0; skipped_count := 0; error_count := 0;
        trace :=
          Log INFO AttemptingToConnect :: failed_attempts (seq 0 k) ++
          [Connect true; Log INFO SuccessfullyConnected;
           Execute CreateTableSql false; Log ERROR ErrorEnsuringTable] |}).
Proof.
  intros (Henv & i & Hi & Hok) Hc.
  destruct (first_success h 10) as [Hall|(k & Hk & Hokk & Hf)].
  { rewrite Hall in Hok by exact Hi. discriminate Hok. }
  exists k. split; [exact Hk|].
  unfold run. rewrite deploy_unfold.
  rewrite (get_db_connection_at h k _ Henv Hk Hokk Hf).
  rewrite ensure_metadata_table_exists_spec. cbn [after working start].
  rewrite Hc.
  cbn [after start committed deployed_count skipped_count error_count trace app].
  rewrite <- ?app_assoc. reflexivity.
Qed.

(** ** Reading the metadata *)

Lemma fold_rows_lookup (rows : list (string * string)) n :
  forall acc : gmap string string,
    fold_left (fun m row => <[row.1 := row.2]> m) rows acc !! n
    = match last_hash rows n with
      | Some h => Some h
      | None => acc !! n
      end.
Proof.
  induction rows as [|[k v] rows IH]; intros acc; [reflexivity|].
  cbn [fold_left last_hash]. rewrite IH.
  destruct (last_hash rows n); [reflexivity|]. cbn [fst snd].
  destruct (String.eqb k n) eqn:Ek.
  - apply String.eqb_eq in Ek. subst k. apply lookup_insert_eq.
  - apply String.eqb_neq in Ek. now apply lookup_insert_ne.
Qed.

(** X14: when the SELECT succeeds, the mapping [get_deployed_hashes]
    returns gives for each script name the hash of the last row read for
    it, and nothing for a name that has no row; the database is left as it
    was. *)
Theorem loaded_hashes_last_row st rows :
  run_select_hashes (working st) = Some rows ->
  exists deployed_hashes : gmap string string,
    get_deployed_hashes st
    = (Ret deployed_hashes, after st [Execute SelectHashesSql true]) /\
    forall n, deployed_hashes !! n = last_hash rows n.
Proof.
  intros E. unfold get_deployed_hashes, try_except, bind, cursor_select, bind.
  simpl. rewrite E. simpl. eexists. split; [reflexivity|].
  intros n. rewrite fold_rows_lookup. rewrite lookup_empty.
  now destruct (last_hash rows n).
Qed.




End Scripts.

Section Texts.
Local Open Scope N_scope.

(** ** The statements of a script *)

Lemma strip_strip s : strip (strip s) = strip s.
Proof.
  destruct (strip_split s) as (w1 & w2 & H1 & H2 & E).
  rewrite E at 2. rewrite strip_app_blank_l by exact H1.
  now rewrite strip_app_blank_r by exact H2.
Qed.

Lemma lines_join_lines b :
  forallb is_line b = true -> b <> [] -> lines (join_lines b) = b.
Proof.
  induction b as [|l b IH]; [congruence|]. intros H _.
  simpl in H. apply andb_prop in H. destruct H as (Hl & Hb).
  rewrite join_lines_cons. destruct b as [|l2 b].
  - rewrite app_nil_r. now apply lines_line.
  - rewrite lines_app, (lines_line l Hl), IH by (assumption || discriminate).
    reflexivity.
Qed.

(** Every batch is made of lines of the text, none of them a separator. *)
Lemma batches_lines ls :
  forallb is_line ls = true ->
  forallb (fun b => forallb is_line b
                    && forallb (fun l => negb (is_separator_line l)) b)
    (batches ls) = true.
Proof.
  induction ls as [|l ls IH]; [reflexivity|]. intros H.
  simpl in H. apply andb_prop in H. destruct H as (Hl & Hls).
  specialize (IH Hls). cbn [batches].
  destruct (is_separator_line l) eqn:Hsep; [exact IH|].
  destruct (batches_not_nil ls) as (b & bs & E). rewrite E in *.
  cbn [forallb] in *. now rewrite Hl, Hsep.
Qed.

Lemma lines_snoc z c :
  N.eqb c LF = false ->
  exists ls l, lines z = ls ++ [l] /\ lines (z ++ [c]) = ls ++ [l ++ [c]].
Proof.
  intros Hc. induction z as [|a z (ls & l & E1 & E2)].
  - exists [], []. simpl. now rewrite Hc.
  - cbn [app lines]. rewrite E1, E2. destruct (a =? LF).
    + exists ([] :: ls), l. now split.
    + destruct ls as [|l0 ls]; cbn [app].
      * exists [], (a :: l). now split.
      * exists ((a :: l0) :: ls), l. now split.
Qed.

(** Blanks around a text do not change which of its lines are
    separators. *)
Lemma separator_free_snoc z c :
  isspace c = true ->
  forallb (fun l => negb (is_separator_line l)) (lines (z ++ [c]))
  = forallb (fun l => negb (is_separator_line l)) (lines z).
Proof.
  intros Hc. destruct (c =? LF) eqn:E.
  - apply N.eqb_eq in E. subst c. rewrite lines_app. cbn [lines].
    now rewrite forallb_app, andb_true_r.
  - destruct (lines_snoc z c E) as (ls & l & -> & ->).
    rewrite !forallb_app. cbn [forallb]. unfold is_separator_line.
    rewrite (strip_app_blank_r l [c]); [reflexivity|]. simpl. now rewrite Hc.
Qed.

Lemma separator_free_app_blank_r w : forall z,
  blank w = true ->
  forallb (fun l => negb (is_separator_line l)) (lines (z ++ w))
  = forallb (fun l => negb (is_separator_line l)) (lines z).
Proof.
  induction w as [|c w IH]; intros z H; [now rewrite app_nil_r|].
  simpl in H. apply andb_prop in H. destruct H as (Hc & Hw).
  change (z ++ c :: w) with (z ++ [c] ++ w). rewrite app_assoc, IH by exact Hw.
  now apply separator_free_snoc.
Qed.

Lemma separator_free_app_blank_l w z :
  blank w = true ->
  forallb (fun l => negb (is_separator_line l)) (lines (w ++ z))
  = forallb (fun l => negb (is_separator_line l)) (lines z).
Proof.
  induction w as [|c w IH]; intros H; [reflexivity|].
  simpl in H. apply andb_prop in H. destruct H as (Hc & Hw).
  cbn [app lines]. destruct (c =? LF).
  - cbn [forallb]. now apply IH.
  - rewrite <- (IH Hw). pose proof (lines_not_nil (w ++ z)).
    destruct (lines (w ++ z)) as [|l ls]; [congruence|]. cbn [forallb].
    unfold is_separator_line. change (c :: l) with ([c] ++ l).
    now rewrite (strip_app_blank_l [c] l) by (simpl; now rewrite Hc).
Qed.

Lemma separator_free_strip s :
  forallb (fun l => negb (is_separator_line l)) (lines (strip s))
  = forallb (fun l => negb (is_separator_line l)) (lines s).
Proof.
  destruct (strip_split s) as (w1 & w2 & H1 & H2 & E).
  rewrite E at 2. rewrite separator_free_app_blank_l by exact H1.
  now rewrite separator_free_app_blank_r by exact H2.
Qed.

(** X16: the statements sent to the database are stable: each is
    non-empty and has no blank at either end, and splitting it again gives
    the statement itself, as the only statement. *)
Theorem statements_resplit content stmt :
  In stmt (split_statements content) ->
  stmt <> [] /\ strip stmt = stmt /\ split_statements stmt = [stmt].
Proof.
  rewrite split_statements_by_lines. unfold statements_by_lines.
  intros Hin. apply filter_In in Hin. destruct Hin as (Hin & Hne).
  apply in_map_iff in Hin. destruct Hin as (b & <- & Hb).
  pose proof (batches_lines (lines content) (lines_are_lines content)) as Hall.
  rewrite forallb_forall in Hall. specialize (Hall b Hb).
  apply andb_prop in Hall. destruct Hall as (Hlines & Hfree).
  assert (Hnil : strip (join_lines b) <> []).
  { intros E. rewrite E in Hne. discriminate Hne. }
  split; [exact Hnil|]. split; [apply strip_strip|].
  assert (Hb0 : b <> []).
  { intros ->. now apply Hnil. }
  rewrite split_statements_by_lines. unfold statements_by_lines.
  rewrite batches_no_separator.
  - cbn [map List.filter]. rewrite join_lines_lines, strip_strip.
    now destruct (strip (join_lines b)).
  - rewrite separator_free_strip, lines_join_lines by assumption. exact Hfree.
Qed.

Lemma length_batches ls :
  length (batches ls) = S (length (List.filter is_separator_line ls)).
Proof.
  induction ls as [|l ls IH]; [reflexivity|]. cbn [batches List.filter].
  destruct (is_separator_line l); cbn [length]; [now rewrite IH|].
  destruct (batches_not_nil ls) as (b & bs & E). rewrite E in *. exact IH.
Qed.

(** X17: a script with [k] separator lines yields at most [k + 1]
    statements; in particular a script without separator line is sent as
    one statement at most. *)
Theorem statement_count_bound content :
  (length (split_statements content) <= S (separator_count content))%nat.
Proof.
  rewrite split_statements_by_lines. unfold statements_by_lines, separator_count.
  rewrite <- length_batches.
  etransitivity; [apply List.filter_length_le|]. now rewrite length_map.
Qed.

End Texts.

Section FileNames.

(** ** The script name of a file *)

Lemma string_length_app s t :
  String.length (s +:+ t) = (String.length s + String.length t)%nat.
Proof. induction s as [|c s IH]; simpl; [reflexivity|now rewrite IH]. Qed.

Lemma string_app_inj_r t s1 : forall s2, s1 +:+ t = s2 +:+ t -> s1 = s2.
Proof.
  induction s1 as [|c s1 IH]; intros [|c2 s2] E; [reflexivity| | |].
  - apply (f_equal String.length) in E.
    rewrite !string_length_app in E. simpl in E. lia.
  - apply (f_equal String.length) in E.
    rewrite !string_length_app in E. simpl in E. lia.
  - simpl in E. injection E as -> E. f_equal. now apply IH.
Qed.

Lemma substring_prefix s t : substring 0 (String.length s) (s +:+ t) = s.
Proof.
  induction s as [|c s IH]; simpl; [now destruct t|now rewrite IH].
Qed.

Lemma substring_all t : substring 0 (String.length t) t = t.
Proof. induction t as [|c t IH]; simpl; [reflexivity|now rewrite IH]. Qed.

Lemma substring_suffix s t :
  substring (String.length s) (String.length t) (s +:+ t) = t.
Proof. induction s as [|c s IH]; [apply substring_all|exact IH]. Qed.

Lemma substring_tail f : forall n m,
  (String.length f <= n + m)%nat -> exists s, f = s +:+ substring n m f.
Proof.
  induction f as [|c f IH]; intros n m Hlen.
  - exists EmptyString. now destruct n, m.
  - destruct n as [|n].
    + exists EmptyString. simpl in Hlen. destruct m as [|m]; [lia|].
      cbn [String.append]. clear IH. revert m Hlen.
      change (forall m, (String.length (String c f) <= S m)%nat ->
                String c f = substring 0 (S m) (String c f)).
      generalize (String c f). clear. intros f.
      induction f as [|c f IH]; intros m Hlen; [reflexivity|].
      simpl in *. f_equal. destruct f as [|c2 f]; [now destruct m|].
      destruct m as [|m]; [simpl in Hlen; lia|]. apply IH. simpl in *. lia.
    + destruct (IH n m) as (s & E); [simpl in Hlen; lia|].
      exists (String c s). simpl substring. rewrite E at 1. reflexivity.
Qed.

Lemma rfind_dot_sql s : rfind_dot (s +:+ ".sql") = Some (String.length s).
Proof. induction s as [|c s IH]; simpl; [reflexivity|now rewrite IH]. Qed.

Lemma all_dots_sql s : all_dots (s +:+ ".sql") = false.
Proof.
  induction s as [|c s IH]; simpl; [reflexivity|]. rewrite IH. apply andb_false_r.
Qed.

Lemma splitext_root_sql s :
  splitext_root (s +:+ ".sql") = if all_dots s then s +:+ ".sql" else s.
Proof.
  unfold splitext_root. now rewrite rfind_dot_sql, substring_prefix.
Qed.

(** X18: the files the loop takes are exactly the names ending in
    [.sql], and the script name of [s.sql] is [s], except when [s] is made
    of dots only (or is empty): then the name keeps its [.sql]. *)
Theorem script_name_of_sql_file filename :
  (endswith filename ".sql" = true <-> exists s, filename = s +:+ ".sql") /\
  forall s, filename = s +:+ ".sql" ->
    splitext_root filename = if all_dots s then filename else s.
Proof.
  split; [split|].
  - unfold endswith. intros E. apply String.eqb_eq in E.
    destruct (substring_tail filename
                (String.length filename - String.length ".sql")
                (String.length ".sql")) as (s & Es); [lia|].
    exists s. now rewrite E in Es.
  - intros (s & ->). unfold endswith.
    rewrite string_length_app, Nat.add_sub, substring_suffix.
    reflexivity.
  - intros s ->. apply splitext_root_sql.
Qed.

(** X19: two different script files get the same script name only when
    one of them is [d.sql] and the other [d.sql.sql] for a [d] made of dots
    only (or empty); all other files have names of their own. *)
Theorem script_name_collisions s1 s2 :
  splitext_root (s1 +:+ ".sql") = splitext_root (s2 +:+ ".sql") ->
  s1 = s2 \/
  (all_dots s1 = true /\ s2 = s1 +:+ ".sql") \/
  (all_dots s2 = true /\ s1 = s2 +:+ ".sql").
Proof.
  rewrite !splitext_root_sql.
  destruct (all_dots s1) eqn:E1, (all_dots s2) eqn:E2; intros E.
  - left. now apply (string_app_inj_r ".sql").
  - right. left. now split.
  - right. right. now split.
  - now left.
Qed.

End FileNames.

Section Hashing.
Context `{Backend}.

(** ** The hash of a file *)

Lemma hash_loop_all size : forall fuel fed rest,
  0 < size -> length rest < fuel ->
  hash_loop size fuel fed rest = Some (fed ++ rest).
Proof.
  induction fuel as [|fuel IH]; intros fed rest Hsize Hfuel; [lia|].
  cbn [hash_loop read_chunk].
  destruct (firstn size rest) as [|b chunk] eqn:E.
  - destruct size as [|size]; [lia|]. destruct rest; [|discriminate E].
    now rewrite app_nil_r.
  - rewrite IH.
    + now rewrite <- E, <- app_assoc, firstn_skipn.
    + exact Hsize.
    + destruct rest as [|b0 rest]; [now destruct size|].
      destruct size as [|size]; [lia|].
      pose proof (length_skipn (S size) (b0 :: rest)) as Hlen.
      rewrite Hlen. simpl in *. lia.
Qed.

(** X20: the chunked read of [calculate_file_hash] ends, after at most
    one read per byte and one more, and the hasher has then been given
    exactly the bytes of the file, in order: the digest is that of the
    whole contents, whatever the length of the file (empty, or a multiple
    of the chunk size). *)
Theorem chunked_hash_is_whole_file_hash fuel data :
  length data < fuel ->
  chunked_file_hash fuel data = Some (sha256_hexdigest data).
Proof.
  intros Hfuel. unfold chunked_file_hash.
  rewrite hash_loop_all; [reflexivity| |exact Hfuel].
  apply Nat.ltb_lt. vm_compute. reflexivity.
Qed.

End Hashing.

(** ** The properties above on concrete runs *)

Section MoreRuns.
Import Toy Faulty.

Lemma statement_failure_at_witness :
  error_count
    (execute_statements "proc.sql" 1
       ([text_of_string "SELECT 1"] ++
        text_of_string "THROW 2" :: [text_of_string "SELECT 3"]) ready).2 = 1.
Proof.
  rewrite (statement_failure_at (H := backend) "proc.sql"
             [text_of_string "SELECT 1"] (text_of_string "THROW 2")
             [text_of_string "SELECT 3"] 1 ready
             {| metadata := Some []; applied := [text_of_string "SELECT 1"] |}
             {| metadata := Some [];
                applied := [text_of_string "SELECT 1"; text_of_string "THROW 2"] |}
             ltac:(vm_compute; reflexivity) ltac:(vm_compute; reflexivity)).
  reflexivity.
Defined.

Lemma successful_deployment_witness :
  deployed_count (process_file ∅ (file "b.sql" "SELECT 2") ready).2 = 1.
Proof.
  rewrite (proj1 (successful_deployment (H := backend) ∅ (file "b.sql" "SELECT 2")
             (list_byte_of_string "SELECT 2") (text_of_string "SELECT 2") ready
             {| metadata := Some []; applied := [text_of_string "SELECT 2"] |}
             {| metadata := Some [("b", digest (list_byte_of_string "SELECT 2"))];
                applied := [text_of_string "SELECT 2"] |}
             eq_refl eq_refl eq_refl ltac:(now rewrite lookup_empty) eq_refl
             ltac:(vm_compute; reflexivity) ltac:(vm_compute; reflexivity))).
  reflexivity.
Defined.

Lemma unreadable_script_is_one_error_witness :
  error_count (process_file ∅ locked ready).2 = 1.
Proof.
  destruct (unreadable_script_is_one_error (H := backend) ∅ locked ready
              eq_refl (or_introl eq_refl)) as (new & E & _).
  rewrite E. reflexivity.
Defined.

Lemma no_record_after_error_witness :
  exists st',
    for_each (process_file ∅) two_scripts one_error = (Ret tt, st') /\
    0 < error_count st' /\
    deployed_count st' = deployed_count one_error /\
    upserts (trace st') = upserts (trace one_error).
Proof.
  exact (no_record_after_error (H := backend) ∅ two_scripts one_error
           (le_n 1)).
Defined.


Lemma connection_after_retries_witness :
  exists k,
    k < 10 /\ connect_ok slow_host k = true /\
    (forall i, i < k -> connect_ok slow_host i = false) /\
    get_db_connection slow_host fresh =
    (Ret tt,
     after fresh (Log INFO AttemptingToConnect :: failed_attempts (seq 0 k) ++
                  [Connect true; Log INFO SuccessfullyConnected])).
Proof.
  apply (connection_after_retries (H := backend) slow_host fresh).
  split; [reflexivity|]. exists 2. split; [unfold max_retries; lia|reflexivity].
Defined.

Lemma connection_retries_exhausted_witness :
  (run unreachable_host Toy.empty).1 = Raise (SystemExit 1).
Proof.
  rewrite (connection_retries_exhausted (H := backend) unreachable_host Toy.empty
             eq_refl (fun _ _ => eq_refl)).
  reflexivity.
Defined.

Lemma missing_configuration_is_fatal_witness :
  run host_with_empty_password Toy.empty =
  (Raise (SystemExit 1),
   after (start Toy.empty)
     [Log INFO AttemptingToConnect; Log ERROR EnvironmentVariablesMustBeSet]).
Proof.
  exact (missing_configuration_is_fatal (H := backend) host_with_empty_password
           Toy.empty eq_refl).
Defined.

Lemma schema_failure_is_fatal_witness :
  exists k,
    k < 10 /\
    (@run read_only slow_host Toy.empty).1 = Raise (SystemExit 1).
Proof.
  destruct (schema_failure_is_fatal (H := read_only) slow_host Toy.empty Toy.empty)
    as (k & Hk & E).
  - split; [reflexivity|]. exists 2. split; [unfold max_retries; lia|reflexivity].
  - reflexivity.
  - exists k. split; [exact Hk|]. rewrite E. reflexivity.
Defined.

Lemma loaded_hashes_last_row_witness :
  exists deployed_hashes : gmap string string,
    get_deployed_hashes (@start backend two_rows)
    = (Ret deployed_hashes, after (@start backend two_rows) [Execute SelectHashesSql true]) /\
    forall n, deployed_hashes !! n
              = last_hash [("a", "h1"); ("b", "h2"); ("a", "h3")]%string n.
Proof.
  exact (loaded_hashes_last_row (H := backend) (@start backend two_rows)
           [("a", "h1"); ("b", "h2"); ("a", "h3")]%string eq_refl).
Defined.


Lemma chunked_hash_is_whole_file_hash_witness :
  chunked_file_hash 9 (list_byte_of_string "SELECT 2")
  = Some (digest (list_byte_of_string "SELECT 2")).
Proof.
  apply (chunked_hash_is_whole_file_hash (H := backend) 9
           (list_byte_of_string "SELECT 2")).
  vm_compute. lia.
Defined.

Lemma statements_resplit_witness :
  text_of_string "stmtB" <> [] /\
  strip (text_of_string "stmtB") = text_of_string "stmtB" /\
  split_statements (text_of_string "stmtB") = [text_of_string "stmtB"].
Proof.
  apply (statements_resplit example_script (text_of_string "stmtB")).
  vm_compute. right. left. reflexivity.
Defined.

Lemma script_name_collisions_witness :
  ("" : string) = ".sql" \/
  (all_dots "" = true /\ (".sql" : string) = "" +:+ ".sql") \/
  (all_dots ".sql" = true /\ ("" : string) = ".sql" +:+ ".sql").
Proof.
  exact (script_name_collisions "" ".sql" eq_refl).
Defined.

End MoreRuns.
